(** * Sales tracker: outstanding and commission pipeline

    A shallow embedding of [main.py]: column validation and derivation
    ([validate_and_prepare]), the sidebar filters (date range, executive
    selection), the aggregations shown on the pages and the in-page
    executive selection of the Sales Analysis page.

    Modelling choices.
    - A numeric column is an int64 column or a float64 column.  An int64
      entry is an integer with wrap-around written out; a float64 entry is
      a binary64 float of the kernel, so every elementwise operation rounds
      as the hardware does, and NaN and the infinities are values.
    - How pandas adds up a float64 column ([Series.sum], the group-by sum)
      is pandas code: the two routines are parameters.  Sums of int64
      columns wrap and need no parameter.
    - A label (executive, customer, order) is compared by value: text, or
      the exact value of a number.
    - A timestamp is a number of nanoseconds since the epoch, a calendar day
      (as returned by the date picker) a number of days since the epoch.
    - Column labels are ASCII strings; [strip] and [lower] are the ASCII
      part of Python's.
    - [pd.to_datetime] on the date column and the parsing of numeric text
      are pandas code: they are parameters of the development. *)

From Stdlib Require Import List String Ascii Bool Arith ZArith.
From Stdlib Require Import QArith Qround Qcanon Lia Permutation Floats.
Import ListNotations.

Set Implicit Arguments.
Set Warnings "-inexact-float".

(** ** Python strings: [str.strip] and [str.lower] *)

Module PyStr.

Definition isspace (c : ascii) : bool :=
  let n := N_of_ascii c in
  (((9 <=? n) && (n <=? 13)) || ((28 <=? n) && (n <=? 32)))%N.

Definition lower_char (c : ascii) : ascii :=
  let n := N_of_ascii c in
  if ((65 <=? n) && (n <=? 90))%N then ascii_of_N (n + 32) else c.

Fixpoint lower (s : string) : string :=
  match s with
  | EmptyString => EmptyString
  | String c s' => String (lower_char c) (lower s')
  end.

Fixpoint lstrip (s : string) : string :=
  match s with
  | EmptyString => EmptyString
  | String c s' => if isspace c then lstrip s' else s
  end.

Fixpoint rstrip (s : string) : string :=
  match s with
  | EmptyString => EmptyString
  | String c s' =>
      match rstrip s' with
      | EmptyString => if isspace c then EmptyString else String c EmptyString
      | t => String c t
      end
  end.

Definition strip (s : string) : string := rstrip (lstrip s).

End PyStr.

(** ** Numbers of a column *)

(** An entry of a numeric column: int64 or float64 (NaN is a float). *)
Inductive num : Type :=
| Int (z : Z)
| Flt (f : float).

(** The int64 that a mathematical integer wraps to. *)
Definition wrap (z : Z) : Z :=
  ((z + 9223372036854775808) mod 18446744073709551616
   - 9223372036854775808)%Z.

(** Conversion of an int64 to float64, rounded to nearest. *)
Definition of_Z (z : Z) : float :=
  match z with
  | Z0 => 0%float
  | Zpos p =>
      if (z <? 9223372036854775808)%Z then of_uint63 (Uint63.of_Z z)
      else 9223372036854775808%float
  | Zneg p =>
      if (Zpos p <? 9223372036854775808)%Z
      then (- of_uint63 (Uint63.of_Z (Zpos p)))%float
      else (-9223372036854775808)%float
  end.

Definition to_float (x : num) : float :=
  match x with
  | Int z => of_Z z
  | Flt f => f
  end.

Definition is_int (x : num) : bool :=
  match x with
  | Int _ => true
  | Flt _ => false
  end.

(** [isna] on a numeric entry. *)
Definition isnull (x : num) : bool :=
  match x with
  | Int _ => false
  | Flt f => is_nan f
  end.

(** A number that is neither NaN nor infinite. *)
Definition finite (x : num) : bool := is_finite (to_float x).

(** Elementwise arithmetic: int64 with int64 wraps, anything with a
    float64 is computed in float64. *)
Definition arith (fi : Z -> Z -> Z) (ff : float -> float -> float)
    (x y : num) : num :=
  match x, y with
  | Int a, Int b => Int (wrap (fi a b))
  | _, _ => Flt (ff (to_float x) (to_float y))
  end.

Definition nadd : num -> num -> num := arith Z.add PrimFloat.add.
Definition nsub : num -> num -> num := arith Z.sub PrimFloat.sub.
Definition nmul : num -> num -> num := arith Z.mul PrimFloat.mul.

Declare Scope num_scope.
Delimit Scope num_scope with num.
Infix "+" := nadd : num_scope.
Infix "-" := nsub : num_scope.
Infix "*" := nmul : num_scope.

(** The literals of the source, as the doubles Python reads them. *)
Definition lit_0_01 : float := 0.01%float.
Definition lit_0_002 : float := 0.002%float.

(** The integers of a column, when it is an int64 column. *)
Fixpoint ints (l : list num) : option (list Z) :=
  match l with
  | [] => Some []
  | Int z :: l' => option_map (cons z) (ints l')
  | Flt _ :: _ => None
  end.

Definition zsum (l : list Z) : Z := fold_right Z.add 0%Z l.

(** The integer of an int64 entry. *)
Definition int_of (x : num) : Z :=
  match x with
  | Int z => z
  | Flt _ => 0%Z
  end.

(** The int64 range. *)
Definition in64 (z : Z) : Prop :=
  (-9223372036854775808 <= z < 9223372036854775808)%Z.

(** A float of the specification that is zero or finite. *)
Definition SFfinite (s : spec_float) : bool :=
  match s with
  | S754_zero _ | S754_finite _ _ _ => true
  | _ => false
  end.

(** ** Labels *)

(** The value of a label entry: empty (NaN), the exact value of a finite
    number, an infinity, or a text. *)
Inductive cell : Type :=
| NaN
| Num (q : Qc)
| Str (s : string)
| Inf (negative : bool).

Definition Qc_eqb (x y : Qc) : bool := Qeq_bool x y.

(** Equality as pandas' hash tables see it ([unique], [isin], group keys):
    NaN is equal to NaN. *)
Definition cell_eqb (a b : cell) : bool :=
  match a, b with
  | NaN, NaN => true
  | Num x, Num y => Qc_eqb x y
  | Str s, Str t => String.eqb s t
  | Inf s, Inf t => Bool.eqb s t
  | _, _ => false
  end.

Definition notna (c : cell) : bool :=
  match c with NaN => false | _ => true end.

Definition QcZ (z : Z) : Qc := Q2Qc (inject_Z z).

(** The exact value of a float as a label. *)
Definition float_label (f : float) : cell :=
  match Prim2SF f with
  | S754_zero _ => Num 0%Qc
  | S754_infinity s => Inf s
  | S754_nan => NaN
  | S754_finite s m e =>
      let v := (inject_Z (Zpos m) * Qpower 2 e)%Q in
      Num (Q2Qc (if s then - v else v))
  end.

Definition num_label (x : num) : cell :=
  match x with
  | Int z => Num (QcZ z)
  | Flt f => float_label f
  end.

(** ** Tables *)

(** An entry of the uploaded table: empty, a number or a text.  An empty
    entry of a float64 column is the float NaN; [Missing] is the empty
    entry of a column of objects. *)
Inductive entry : Type :=
| Missing
| Number (x : num)
| Text (s : string).

Definition label_of (e : entry) : cell :=
  match e with
  | Missing => NaN
  | Number x => num_label x
  | Text s => Str s
  end.

(** The table as read from the upload: the header labels and the rows, a
    row being the entries in header order.  Labels may repeat. *)
Record RawFrame : Type := mkRaw {
  columns : list string;
  values : list (list entry)
}.

(** One record of the prepared table: the parsed date ([None] is NaT), the
    three label columns, the seven monetary columns and the two derived
    columns. *)
Record Row : Type := mkRow {
  date : option Z;
  order_no : cell;
  executive_name : cell;
  customer_name : cell;
  opening_balance : num;
  sales_value : num;
  sales_return : num;
  sales_in_and_out : num;
  paid_amount : num;
  cashback : num;
  commission : num;
  outstanding : num;
  exec_commission_calc : num
}.

Definition Frame : Type := list Row.

(** How a run stops early: the two [st.error] + [st.stop()] exits of the
    script, and an exception raised inside pandas. *)
Inductive error : Type :=
| MissingColumnsError (missing : list string)
| InvalidRangeError
| PandasError.

Inductive result (A : Type) : Type :=
| Ok (a : A)
| Err (e : error).

Arguments Err {A} e.

Definition bind {A B : Type} (r : result A) (k : A -> result B) : result B :=
  match r with
  | Ok a => k a
  | Err e => Err e
  end.

Definition REQUIRED_COLUMNS : list string :=
  ["date"; "order no"; "executive name"; "customer name";
   "opening balance"; "sales value"; "sales return";
   "sales in and out"; "paid amount"; "cashback"; "commission"]%string.

Definition num_cols : list string :=
  ["opening balance"; "sales value"; "sales return";
   "sales in and out"; "paid amount"; "cashback"; "commission"]%string.

(** Positions of label [c] in the header, counted from [i]. *)
Fixpoint locs (c : string) (cols : list string) (i : nat) : list nat :=
  match cols with
  | [] => []
  | x :: cols' =>
      if String.eqb c x then i :: locs c cols' (S i) else locs c cols' (S i)
  end.

(** [df[c]] is a Series only when the label occurs once; with a repeated
    label it is a DataFrame, which [pd.to_datetime] and [pd.to_numeric]
    reject with an exception. *)
Definition series_loc (cols : list string) (c : string) : option nat :=
  match locs c cols 0 with
  | [j] => Some j
  | _ => None
  end.

(** First position of a label.  The three label columns are carried along
    unparsed, so a repeated label does not stop preparation; pandas then
    keeps all the columns of that name, and the record here shows the
    first. *)
Definition first_loc (cols : list string) (c : string) : nat :=
  hd 0%nat (locs c cols 0).

(** Entry of a row at a position; a short row reads as empty. *)
Definition iloc (j : nat) (row : list entry) : entry := nth j row Missing.

Fixpoint traverse {A B : Type} (f : A -> option B) (l : list A)
  : option (list B) :=
  match l with
  | [] => Some []
  | a :: l' =>
      match f a, traverse f l' with
      | Some b, Some bs => Some (b :: bs)
      | _, _ => None
      end
  end.

Definition normalize (c : string) : string := PyStr.lower (PyStr.strip c).

Definition missing_columns (cols : list string) : list string :=
  filter (fun c => negb (existsb (String.eqb c) cols)) REQUIRED_COLUMNS.

(** The two derived columns of the source, on one record. *)
Definition derive (d : option Z) (ord exe cus : cell)
    (ob sv sr sio pa cb cm : num) : Row :=
  {| date := d; order_no := ord; executive_name := exe; customer_name := cus;
     opening_balance := ob; sales_value := sv; sales_return := sr;
     sales_in_and_out := sio; paid_amount := pa; cashback := cb;
     commission := cm;
     outstanding := (ob + sv - sr - sio - pa - cb - cm)%num;
     exec_commission_calc := (pa * Flt lit_0_01)%num |}.

(** The seven monetary columns with the record field each one fills. *)
Definition monetary : list (string * (Row -> num)) :=
  [("opening balance", opening_balance); ("sales value", sales_value);
   ("sales return", sales_return); ("sales in and out", sales_in_and_out);
   ("paid amount", paid_amount); ("cashback", cashback);
   ("commission", commission)]%string.

Section Prepare.

(** [pd.to_datetime(column, errors="coerce")]: one timestamp or NaT per
    entry. *)
Variable to_datetime : list entry -> list (option Z).
(** pandas' reading of a text as a number (an int64, or a float64 which
    may be infinite or NaN), [None] when it is not one. *)
Variable parse_number : string -> option num.

(** [col.fillna(0)], per entry. *)
Definition fillna_entry (e : entry) : entry :=
  match e with
  | Missing => Number (Int 0)
  | Number (Flt f) => if is_nan f then Number (Flt 0%float) else e
  | _ => e
  end.

(** [pd.to_numeric(..., errors='coerce')], per entry: NaN for what is not a
    number. *)
Definition to_numeric (e : entry) : num :=
  match e with
  | Missing => Flt nan
  | Number x => x
  | Text s =>
      match parse_number s with
      | Some x => x
      | None => Flt nan
      end
  end.

(** The result is an int64 column when every entry reads as an integer,
    and a float64 column otherwise. *)
Definition int_column (j : nat) (rows : list (list entry)) : bool :=
  forallb (fun row => is_int (to_numeric (fillna_entry (iloc j row)))) rows.

(** The last [.fillna(0)], per entry. *)
Definition fillna (x : num) : num :=
  match x with
  | Int _ => x
  | Flt f => if is_nan f then Flt 0%float else x
  end.

(** [pd.to_numeric(col.fillna(0), errors='coerce').fillna(0)], per entry
    of a column that comes out as int64 ([as_int]) or as float64. *)
Definition coerce (as_int : bool) (e : entry) : num :=
  let x := to_numeric (fillna_entry e) in
  if as_int then x else fillna (Flt (to_float x)).

(** The prepared record of one row: label entries by value, monetary
    entries coerced, then the derived columns.  A monetary column is given
    by its position and by whether it is an int64 column. *)
Definition prepare_row (jo je jc : nat) (p1 p2 p3 p4 p5 p6 p7 : nat * bool)
    (d : option Z) (row : list entry) : Row :=
  let at_ (p : nat * bool) := coerce (snd p) (iloc (fst p) row) in
  derive d (label_of (iloc jo row)) (label_of (iloc je row))
    (label_of (iloc jc row))
    (at_ p1) (at_ p2) (at_ p3) (at_ p4) (at_ p5) (at_ p6) (at_ p7).

Definition validate_and_prepare (df_raw : RawFrame)
  : result (option Frame * list string) :=
  let cols := map normalize (columns df_raw) in
  let missing := missing_columns cols in
  match missing with
  | _ :: _ => Ok (None, missing)
  | [] =>
      match series_loc cols "date", traverse (series_loc cols) num_cols with
      | Some jd, Some [j1; j2; j3; j4; j5; j6; j7] =>
          let jo := first_loc cols "order no" in
          let je := first_loc cols "executive name" in
          let jc := first_loc cols "customer name" in
          let dates := to_datetime (map (iloc jd) (values df_raw)) in
          let p j := (j, int_column j (values df_raw)) in
          Ok (Some
                (map (fun dr => prepare_row jo je jc (p j1) (p j2) (p j3)
                                  (p j4) (p j5) (p j6) (p j7)
                                  (fst dr) (snd dr))
                     (combine dates (values df_raw))),
              [])
      | _, _ => Err PandasError
      end
  end.

(** The caller: with missing columns the run reports them and stops. *)
Definition load (raw : RawFrame) : result Frame :=
  bind (validate_and_prepare raw)
    (fun out =>
       match out with
       | (_, (_ :: _) as missing) => Err (MissingColumnsError missing)
       | (Some df, []) => Ok df
       | (None, []) => Err PandasError
       end).

End Prepare.

(** ** The sidebar filters *)

Definition ns_per_day : Z := 86400000000000.

(** [pd.to_datetime] of a calendar day: midnight of that day. *)
Definition midnight (day : Z) : Z := (day * ns_per_day)%Z.

(** Row mask of the date filter; a comparison with NaT is false. *)
Definition in_range (date_from date_to : Z) (r : Row) : bool :=
  match date r with
  | Some t => ((midnight date_from <=? t) && (t <=? midnight date_to))%Z
  | None => false
  end.

Definition date_filter (date_from date_to : Z) (df : Frame) : Frame :=
  filter (in_range date_from date_to) df.

Definition isin (c : cell) (selected : list cell) : bool :=
  existsb (cell_eqb c) selected.

(** [unique()] over any key type: the distinct values in order of first
    appearance. *)
Fixpoint uniq {K : Type} (eqb : K -> K -> bool) (l : list K) : list K :=
  match l with
  | [] => []
  | k :: l' => k :: filter (fun x => negb (eqb x k)) (uniq eqb l')
  end.

(** [Series.unique()] on a label column; NaN is one of the values. *)
Definition unique (l : list cell) : list cell := uniq cell_eqb l.

Definition executive_filter (selected : list cell) (df : Frame) : Frame :=
  filter (fun r => isin (executive_name r) selected) df.

(** Range check, then the two filters. *)
Definition filter_stage (df : Frame) (date_from date_to : Z)
    (selected_executives : list cell) : result Frame :=
  if (date_from >? date_to)%Z then Err InvalidRangeError
  else Ok (executive_filter selected_executives
             (date_filter date_from date_to df)).

(** A run of the script from the upload to the filtered table, for the days
    and the executives that the sidebar widgets have returned. *)
Definition run (to_datetime : list entry -> list (option Z))
    (parse_number : string -> option num) (raw : RawFrame)
    (date_from date_to : Z) (selected_executives : list cell) : result Frame :=
  bind (load to_datetime parse_number raw)
    (fun df => filter_stage df date_from date_to selected_executives).

(** The Sales Analysis page: its own selection, where nothing selected
    means no restriction. *)
Definition sales_analysis (exec_filter : list cell) (df_filtered : Frame)
  : Frame :=
  match exec_filter with
  | [] => df_filtered
  | _ :: _ => filter (fun r => isin (executive_name r) exec_filter) df_filtered
  end.

(** ** Aggregations *)

(** Keys of the non-null entries of a key column. *)
Fixpoint dropna {K : Type} (l : list (option K)) : list K :=
  match l with
  | [] => []
  | Some k :: l' => k :: dropna l'
  | None :: l' => dropna l'
  end.

Definition has_key {K : Type} (eqb : K -> K -> bool) (key : Row -> option K)
    (k : K) (r : Row) : bool :=
  match key r with
  | Some k' => eqb k' k
  | None => false
  end.

(** Records whose key is one of [ks], and records with a key at all. *)
Definition keyed_in {K : Type} (eqb : K -> K -> bool) (key : Row -> option K)
    (ks : list K) (r : Row) : bool :=
  match key r with
  | Some k => existsb (eqb k) ks
  | None => false
  end.

Definition keyed {K : Type} (key : Row -> option K) (r : Row) : bool :=
  match key r with
  | Some _ => true
  | None => false
  end.

(** A label cell as a group key: NaN is the null key. *)
Definition label (c : cell) : option cell :=
  match c with
  | NaN => None
  | _ => Some c
  end.

(** What [Series.sum()] hands to its float64 routine: NaN replaced by 0. *)
Definition filled (l : list num) : list float :=
  map (fun x => if isnull x then 0%float else to_float x) l.

(** What the group-by sum adds up: NaN entries skipped. *)
Fixpoint skipped (l : list num) : list float :=
  match l with
  | [] => []
  | x :: l' => if isnull x then skipped l' else to_float x :: skipped l'
  end.

Section Aggregate.

(** The float64 summation routines of pandas: behind [Series.sum()] and
    [Series.mean()], and behind [groupby(...).sum()]. *)
Variable series_sum : list float -> float.
Variable group_sum : list float -> float.

(** [Series.sum()]: wrapping on an int64 column, [series_sum] on a float64
    column.  (On an empty column pandas returns the zero of the column's
    type, 0 or 0.0; the integer stands for both here.) *)
Definition nansum (l : list num) : num :=
  match ints l with
  | Some zs => Int (wrap (zsum zs))
  | None => Flt (series_sum (filled l))
  end.

(** The sum of one group. *)
Definition gsum (l : list num) : num :=
  match ints l with
  | Some zs => Int (wrap (zsum zs))
  | None => Flt (group_sum (skipped l))
  end.

(** [Series.mean()]: the float64 sum over the count of non-null entries,
    NaN when there is none. *)
Definition mean (l : list num) : num :=
  match skipped l with
  | [] => Flt nan
  | fs =>
      Flt (series_sum (filled l) / of_Z (Z.of_nat (List.length fs)))%float
  end.

Definition total_sales (v : Frame) : num := nansum (map sales_value v).
Definition total_paid (v : Frame) : num := nansum (map paid_amount v).
Definition total_outstanding (v : Frame) : num := nansum (map outstanding v).
Definition total_exec_commission (v : Frame) : num :=
  nansum (map exec_commission_calc v).
Definition team_leader_commission (v : Frame) : num :=
  (total_paid v * Flt lit_0_002)%num.

(** [v.groupby(key)[col].sum()]: one sum per distinct key; a record whose
    key is null ([None]) belongs to no group.  pandas returns the groups
    ordered by key; here they are in order of first appearance. *)
Definition groupby_sum {K : Type} (eqb : K -> K -> bool)
    (key : Row -> option K) (col : Row -> num) (v : Frame) : list (K * num) :=
  map (fun k => (k, gsum (map col (filter (has_key eqb key k) v))))
      (uniq eqb (dropna (map key v))).

(** [.sum()] of the value column of a group-by result. *)
Definition sum_groups {K : Type} (g : list (K * num)) : num :=
  nansum (map snd g).

Definition by_executive (col : Row -> num) (v : Frame) : list (cell * num) :=
  groupby_sum cell_eqb (fun r => label (executive_name r)) col v.
Definition by_customer (col : Row -> num) (v : Frame) : list (cell * num) :=
  groupby_sum cell_eqb (fun r => label (customer_name r)) col v.
Definition by_date (col : Row -> num) (v : Frame) : list (Z * num) :=
  groupby_sum Z.eqb date col v.

(** The table of the All Customer Outstanding page. *)
Definition cust_outstanding (v : Frame) : list (cell * num) :=
  by_customer outstanding v.

(** The two averages of the Customer Analysis page. *)
Definition avg_sales_per_customer (v : Frame) : num :=
  mean (map snd (by_customer sales_value v)).
Definition avg_outstanding_per_customer (v : Frame) : num :=
  mean (map snd (by_customer outstanding v)).

(** The options of the customer select box: the name column of the
    per-customer table. *)
Definition customer_options (v : Frame) : list cell :=
  map fst (by_customer sales_value v).

End Aggregate.

(** ** The default date range *)

(** [Timestamp.date()]: the calendar day of a timestamp. *)
Definition to_date (t : Z) : Z := (t / ns_per_day)%Z.

(** [Series.min()] and [Series.max()] of the date column; NaT entries are
    skipped, and the result is NaT ([None]) when no entry is left. *)
Definition date_min (df : Frame) : option Z :=
  match dropna (map date df) with
  | [] => None
  | t :: l => Some (fold_right Z.min t l)
  end.

Definition date_max (df : Frame) : option Z :=
  match dropna (map date df) with
  | [] => None
  | t :: l => Some (fold_right Z.max t l)
  end.

(** The range the date picker starts from: the days of the earliest and of
    the latest timestamp. *)
Definition default_range (df : Frame) : option (Z * Z) :=
  match date_min df, date_max df with
  | Some lo, Some hi => Some (to_date lo, to_date hi)
  | _, _ => None
  end.

(** ** The Customer Analysis page *)

(** The Total Customers metric: [len(df['customer name'].unique())]. *)
Definition total_customers (v : Frame) : nat :=
  List.length (unique (map customer_name v)).

(** Elementwise [==] of a column with a value: NaN equals nothing. *)
Definition eq_cell (a b : cell) : bool :=
  match a with
  | NaN => false
  | _ => cell_eqb a b
  end.

(** Python truth value of a selected name: zero and the empty text are
    false. *)
Definition truthy (c : cell) : bool :=
  match c with
  | NaN => true
  | Num q => negb (Qc_eqb q 0%Qc)
  | Str s => negb (String.eqb s EmptyString)
  | Inf _ => true
  end.

(** The records shown for the selected customer; [None] when the page
    shows no profile ([customer] is [None] when the select box has no
    option). *)
Definition customer_profile (v : Frame) (customer : option cell)
  : option Frame :=
  match customer with
  | Some c =>
      if truthy c then Some (filter (fun r => eq_cell (customer_name r) c) v)
      else None
  | None => None
  end.

(** ** A concrete reading of the pandas parameters

    Used to run the pipeline on sample tables: integers in the date column
    are nanoseconds since the epoch (anything else is NaT); a text is a
    number when it is a non-empty run of decimal digits, or the word
    [inf]; a float64 column is added up from left to right. *)

Definition epoch_datetime (l : list entry) : list (option Z) :=
  map (fun e => match e with Number (Int z) => Some z | _ => None end) l.

Definition digit (c : ascii) : option Z :=
  let n := N_of_ascii c in
  if ((48 <=? n) && (n <=? 57))%N then Some (Z.of_N (n - 48)) else None.

Fixpoint digits (acc : Z) (s : string) : option Z :=
  match s with
  | EmptyString => Some acc
  | String c s' =>
      match digit c with
      | Some d => digits (10 * acc + d)%Z s'
      | None => None
      end
  end.

Definition parse_digits (s : string) : option num :=
  match s with
  | EmptyString => None
  | _ =>
      if String.eqb s "inf" then Some (Flt infinity)
      else option_map Int (digits 0 s)
  end.

Definition left_sum (l : list float) : float :=
  fold_left PrimFloat.add l 0%float.

(** ** Sample tables *)

Definition sample_header : list string :=
  [" Date"; "Order No"; "Executive Name "; "customer name";
   "opening balance"; "sales value"; "sales return"; "sales in and out";
   "Paid Amount"; "cashback"; "commission"]%string.

Definition sample_row (day : Z) (ord exe cus : entry)
    (ob sv sr sio pa cb cm : num) : list entry :=
  [Number (Int (midnight day)); ord; exe; cus; Number ob; Number sv;
   Number sr; Number sio; Number pa; Number cb; Number cm].

(** The record of the worked example: 100, 50, 0, 0, 30, 5, 2. *)
Definition example_raw : RawFrame :=
  mkRaw sample_header
    [sample_row 19000 (Text "A-1") (Text "bob") (Text "acme")
       (Int 100) (Int 50) (Int 0) (Int 0) (Int 30) (Int 5) (Int 2)].

(** What preparation makes of it. *)
Definition example_row : Row :=
  derive (Some (midnight 19000)) (Str "A-1") (Str "bob") (Str "acme")
    (Int 100) (Int 50) (Int 0) (Int 0) (Int 30) (Int 5) (Int 2).

(** The same table with a second column that normalises to
    [paid amount]. *)
Definition dup_paid_raw : RawFrame :=
  mkRaw (sample_header ++ ["paid amount"%string])
    [sample_row 19000 (Text "A-1") (Text "bob") (Text "acme")
       (Int 100) (Int 50) (Int 0) (Int 0) (Int 30) (Int 5) (Int 2)
       ++ [Number (Int 30)]].

(** A table whose only record has no customer name. *)
Definition unnamed_customer_raw : RawFrame :=
  mkRaw sample_header
    [sample_row 19000 (Text "A-1") (Text "bob") Missing
       (Int 100) (Int 50) (Int 0) (Int 0) (Int 30) (Int 5) (Int 2)].

(** What preparation makes of it. *)
Definition unnamed_row : Row :=
  derive (Some (midnight 19000)) (Str "A-1") (Str "bob") NaN
    (Int 100) (Int 50) (Int 0) (Int 0) (Int 30) (Int 5) (Int 2).

(** The table without its [commission] column. *)
Definition no_commission_raw : RawFrame :=
  mkRaw (removelast sample_header)
    [removelast
       (sample_row 19000 (Text "A-1") (Text "bob") (Text "acme")
          (Int 100) (Int 50) (Int 0) (Int 0) (Int 30) (Int 5) (Int 2))].

(** An int64 table at the edge of the range: opening balance 2^63 - 1,
    sales value 1. *)
Definition overflow_raw : RawFrame :=
  mkRaw sample_header
    [sample_row 19000 (Text "A-1") (Text "bob") (Text "acme")
       (Int 9223372036854775807) (Int 1) (Int 0) (Int 0) (Int 0) (Int 0)
       (Int 0)].

(** A float64 table: paid amount 35.0. *)
Definition paid35_raw : RawFrame :=
  mkRaw sample_header
    [sample_row 19000 (Text "A-1") (Text "bob") (Text "acme")
       (Flt 0) (Flt 0) (Flt 0) (Flt 0) (Flt 35) (Flt 0) (Flt 0)].

(** A table of texts in which sales value and paid amount read [inf]. *)
Definition inf_raw : RawFrame :=
  mkRaw sample_header
    [[Number (Int (midnight 19000)); Text "A-1"; Text "bob"; Text "acme";
      Text "100"; Text "inf"; Text "0"; Text "0"; Text "inf"; Text "5";
      Text "2"]].

(** A table whose only record is stamped at noon of day 19000. *)
Definition noon_raw : RawFrame :=
  mkRaw sample_header
    [[Number (Int (midnight 19000 + 43200000000000)); Text "A-2"; Text "bob";
      Text "acme"; Number (Int 0); Number (Int 0); Number (Int 0);
      Number (Int 0); Number (Int 0); Number (Int 0); Number (Int 0)]].

(** What preparation makes of it. *)
Definition noon_row : Row :=
  derive (Some (midnight 19000 + 43200000000000)%Z) (Str "A-2") (Str "bob")
    (Str "acme") (Int 0) (Int 0) (Int 0) (Int 0) (Int 0) (Int 0) (Int 0).


(** A float64 table: 0.1 + 0.2 - 0.3. *)
Definition tenths_raw : RawFrame :=
  mkRaw sample_header
    [sample_row 19000 (Text "A-1") (Text "bob") (Text "acme")
       (Flt 0.1) (Flt 0.2) (Flt 0.3) (Flt 0) (Flt 0) (Flt 0) (Flt 0)].

(** A float64 view of three records, two of one customer: outstanding 0.1,
    0.1 and 0.4. *)
Definition float_row (cus : string) (ob : float) : Row :=
  derive (Some (midnight 19000)) (Str "A-1") (Str "bob") (Str cus)
    (Flt ob) (Flt 0) (Flt 0) (Flt 0) (Flt 0) (Flt 0) (Flt 0).

Definition float_view : Frame :=
  [float_row "acme" 0.1; float_row "zenith" 0.1; float_row "acme" 0.4].

(** * Facts *)

(** ** Equality tests *)

Lemma Qc_eqb_eq (x y : Qc) : Qc_eqb x y = true <-> x = y.
Proof.
  unfold Qc_eqb. rewrite Qeq_bool_iff. split.
  - apply Qc_is_canon.
  - intros ->. reflexivity.
Qed.

Lemma cell_eqb_eq (a b : cell) : cell_eqb a b = true <-> a = b.
Proof.
  destruct a as [|x|s|n], b as [|y|t|n']; simpl;
    try (split; [discriminate | congruence]).
  - split; reflexivity.
  - rewrite Qc_eqb_eq. split; congruence.
  - rewrite String.eqb_eq. split; congruence.
  - rewrite Bool.eqb_true_iff. split; congruence.
Qed.

Lemma isin_In (c : cell) (l : list cell) : isin c l = true <-> In c l.
Proof.
  unfold isin. rewrite existsb_exists. split.
  - intros [x [Hx He]]. apply cell_eqb_eq in He. now subst.
  - intros H. exists c. split; [assumption | now apply cell_eqb_eq].
Qed.

(** ** Lists *)

Lemma filter_true {A : Type} (f : A -> bool) (l : list A) :
  (forall x, In x l -> f x = true) -> filter f l = l.
Proof.
  induction l as [|a l IH]; intros H; simpl; [reflexivity|].
  rewrite (H a (or_introl eq_refl)). f_equal. apply IH.
  intros x Hx. apply H. now right.
Qed.

(** ** int64 sums *)

Lemma wrap_small (z : Z) : in64 z -> wrap z = z.
Proof.
  unfold in64, wrap. intros H. rewrite Z.mod_small; lia.
Qed.

Lemma wrap_add_l (a b : Z) : wrap (wrap a + b) = wrap (a + b).
Proof.
  unfold wrap. f_equal.
  replace ((a + 9223372036854775808) mod 18446744073709551616
           - 9223372036854775808 + b + 9223372036854775808)%Z
    with ((a + 9223372036854775808) mod 18446744073709551616 + b)%Z by lia.
  rewrite Z.add_mod_idemp_l by discriminate. f_equal. lia.
Qed.

Lemma wrap_add_r (a b : Z) : wrap (a + wrap b) = wrap (a + b).
Proof.
  rewrite (Z.add_comm a (wrap b)), wrap_add_l. f_equal. apply Z.add_comm.
Qed.

Lemma zsum_app (l l' : list Z) : zsum (l ++ l') = (zsum l + zsum l')%Z.
Proof.
  induction l as [|z l IH]; simpl; [reflexivity|]. rewrite IH. lia.
Qed.

Lemma zsum_perm (l l' : list Z) : Permutation l l' -> zsum l = zsum l'.
Proof.
  induction 1 as [|x l l' _ IH|x y l|l l' l'' _ IH1 _ IH2]; simpl; lia.
Qed.

Lemma ints_all (l : list num) :
  (forall x, In x l -> is_int x = true) -> ints l = Some (map int_of l).
Proof.
  induction l as [|x l IH]; intros H; simpl; [reflexivity|].
  assert (Hx := H x (or_introl eq_refl)).
  destruct x as [z|f]; [|discriminate Hx].
  rewrite IH by (intros y Hy; apply H; now right). reflexivity.
Qed.


Lemma ints_map_Int (zs : list Z) : ints (map Int zs) = Some zs.
Proof.
  induction zs as [|z zs IH]; simpl; [reflexivity|]. now rewrite IH.
Qed.

Lemma ints_none (l : list num) :
  (exists x, In x l /\ is_int x = false) -> ints l = None.
Proof.
  intros [x [Hx Hn]]. induction l as [|y l IH]; [destruct Hx|].
  simpl. destruct Hx as [->|Hx].
  - destruct x; [discriminate Hn | reflexivity].
  - destruct y; [|reflexivity]. now rewrite IH.
Qed.

Section Uniq.

Variables (K : Type) (eqb : K -> K -> bool).
Hypothesis eqb_eq : forall x y, eqb x y = true <-> x = y.

Lemma In_uniq (l : list K) (x : K) : In x (uniq eqb l) <-> In x l.
Proof.
  induction l as [|k l IH]; simpl; [tauto|].
  rewrite filter_In, IH. split.
  - intros [H|[H _]]; auto.
  - intros [H|H]; [now left|].
    destruct (eqb x k) eqn:E.
    + left. symmetry. now apply eqb_eq.
    + right. split; [assumption | reflexivity].
Qed.

Lemma NoDup_uniq (l : list K) : NoDup (uniq eqb l).
Proof.
  induction l as [|k l IH]; simpl; constructor.
  - rewrite filter_In. intros [_ H].
    assert (E : eqb k k = true) by now apply eqb_eq.
    rewrite E in H. discriminate.
  - now apply NoDup_filter.
Qed.

Lemma In_dropna (l : list (option K)) (k : K) :
  In k (dropna l) <-> In (Some k) l.
Proof.
  induction l as [|[k'|] l IH]; simpl; [tauto| |].
  - rewrite IH. split; intros [H|H]; auto; left; congruence.
  - rewrite IH. split; [auto | intros [H|H]; [discriminate | assumption]].
Qed.

(** *** The groups partition the keyed records *)

Variable key : Row -> option K.

Lemma keyed_in_cons (k : K) (ks : list K) (r : Row) :
  keyed_in eqb key (k :: ks) r = has_key eqb key k r || keyed_in eqb key ks r.
Proof.
  unfold keyed_in, has_key. destruct (key r); reflexivity.
Qed.

Lemma has_key_fresh (k : K) (ks : list K) (r : Row) :
  ~ In k ks -> has_key eqb key k r = true -> keyed_in eqb key ks r = false.
Proof.
  unfold keyed_in, has_key. intros Hk H.
  destruct (key r) as [k'|]; [|reflexivity].
  apply eqb_eq in H. subst k'.
  apply not_true_is_false. rewrite existsb_exists.
  intros [x [Hx Hx']]. apply eqb_eq in Hx'. now subst.
Qed.

Lemma group_split (k : K) (ks : list K) (v : Frame) :
  ~ In k ks ->
  Permutation (filter (keyed_in eqb key (k :: ks)) v)
    (filter (has_key eqb key k) v ++ filter (keyed_in eqb key ks) v).
Proof.
  intros Hk. induction v as [|r v IH]; simpl; [constructor|].
  rewrite keyed_in_cons.
  destruct (has_key eqb key k r) eqn:E1.
  - rewrite has_key_fresh with (k := k) by assumption. simpl.
    now constructor.
  - destruct (keyed_in eqb key ks r); simpl; [|exact IH].
    now apply Permutation_cons_app.
Qed.

Lemma groups_of_keys (ks : list K) (v : Frame) :
  NoDup ks ->
  Permutation (List.concat (map (fun k => filter (has_key eqb key k) v) ks))
    (filter (keyed_in eqb key ks) v).
Proof.
  induction 1 as [|k ks Hk _ IH]; simpl.
  - replace (filter (keyed_in eqb key []) v) with (@nil Row); [constructor|].
    symmetry. induction v as [|r v IHv]; simpl; [reflexivity|].
    replace (keyed_in eqb key [] r) with false; [exact IHv|].
    unfold keyed_in. destruct (key r); reflexivity.
  - rewrite (@group_split k ks v Hk). now apply Permutation_app_head.
Qed.

(** The records of the groups of a view, put together, are its keyed
    records. *)
Lemma groups_partition (v : Frame) :
  Permutation
    (List.concat (map (fun k => filter (has_key eqb key k) v)
               (uniq eqb (dropna (map key v)))))
    (filter (keyed key) v).
Proof.
  rewrite groups_of_keys by apply NoDup_uniq.
  replace (filter (keyed_in eqb key (uniq eqb (dropna (map key v)))) v)
    with (filter (keyed key) v); [reflexivity|].
  apply filter_ext_in. intros r Hr.
  unfold keyed_in, keyed. destruct (key r) as [k|] eqn:E; [|reflexivity].
  symmetry. apply existsb_exists. exists k. split; [|now apply eqb_eq].
  apply In_uniq, In_dropna. rewrite <- E. now apply in_map.
Qed.

End Uniq.

(** ** float64: where NaN can come from *)

Lemma SFcompare_refl (s : spec_float) :
  s <> S754_nan -> SFcompare s s = Some Eq.
Proof.
  destruct s as [b|b| |b m e]; simpl; intros H;
    try (now destruct b); [now elim H|].
  rewrite Z.compare_refl.
  change (Pos.compare_cont Eq m m) with (Pos.compare m m).
  rewrite Pos.compare_refl. now destruct b.
Qed.

Lemma is_nan_spec (f : float) : is_nan f = true <-> Prim2SF f = S754_nan.
Proof.
  unfold is_nan. rewrite eqb_spec. unfold SFeqb. split.
  - intros H. destruct (Prim2SF f) eqn:E; try reflexivity;
      rewrite SFcompare_refl in H by discriminate; discriminate H.
  - intros ->. reflexivity.
Qed.

Lemma not_nan_spec (f : float) : is_nan f = false <-> Prim2SF f <> S754_nan.
Proof.
  rewrite <- is_nan_spec. destruct (is_nan f); split; congruence.
Qed.

Lemma is_finite_spec (f : float) :
  is_finite f = true <-> SFfinite (Prim2SF f) = true.
Proof.
  unfold is_finite, is_infinity.
  rewrite eqb_spec, abs_spec. unfold is_nan. rewrite eqb_spec.
  change (Prim2SF infinity) with (S754_infinity false).
  unfold SFeqb.
  destruct (Prim2SF f) as [b|b| |b m e] eqn:E; simpl.
  - split; reflexivity.
  - destruct b; simpl; split; discriminate.
  - split; discriminate.
  - rewrite Z.compare_refl.
    change (Pos.compare_cont Eq m m) with (Pos.compare m m).
    rewrite Pos.compare_refl. destruct b; simpl; split; reflexivity.
Qed.

(** Rounding a non-negative mantissa never gives NaN. *)

Lemma shr_1_nonneg (mrs : shr_record) :
  (0 <= shr_m mrs)%Z -> (0 <= shr_m (shr_1 mrs))%Z.
Proof.
  destruct mrs as [m r s]. destruct m as [|[p|p|]|p]; simpl; lia.
Qed.

Lemma iter_shr_1_nonneg (p : positive) (mrs : shr_record) :
  (0 <= shr_m mrs)%Z -> (0 <= shr_m (iter_pos shr_1 p mrs))%Z.
Proof.
  revert mrs. induction p as [p IH|p IH|]; intros mrs H; simpl.
  - apply IH, IH. now apply shr_1_nonneg.
  - now apply IH, IH.
  - now apply shr_1_nonneg.
Qed.

Lemma shr_fexp_nonneg (m e : Z) (l : location) :
  (0 <= m)%Z -> (0 <= shr_m (fst (shr_fexp prec emax m e l)))%Z.
Proof.
  intros H. unfold shr_fexp, shr.
  assert (R : (0 <= shr_m (shr_record_of_loc m l))%Z)
    by (destruct l as [|[ | | ]]; exact H).
  destruct (fexp prec emax (Zdigits2 m + e) - e)%Z; simpl; try exact R.
  now apply iter_shr_1_nonneg.
Qed.

Lemma round_nearest_even_nonneg (m : Z) (l : location) :
  (0 <= m)%Z -> (0 <= round_nearest_even m l)%Z.
Proof.
  intros H. destruct l as [|[ | | ]]; simpl; try lia.
  destruct (Z.even m); lia.
Qed.

Lemma binary_round_aux_not_nan (sx : bool) (mx ex : Z) (lx : location) :
  (0 <= mx)%Z -> binary_round_aux prec emax sx mx ex lx <> S754_nan.
Proof.
  intros H. unfold binary_round_aux.
  assert (H1 := shr_fexp_nonneg ex lx H).
  destruct (shr_fexp prec emax mx ex lx) as [mrs' e']. simpl in H1.
  assert (H2 := shr_fexp_nonneg e' loc_Exact
                  (round_nearest_even_nonneg (loc_of_shr_record mrs') H1)).
  destruct (shr_fexp prec emax
              (round_nearest_even (shr_m mrs') (loc_of_shr_record mrs')) e'
              loc_Exact) as [mrs'' e'']. simpl in H2.
  destruct (shr_m mrs'') as [|m|m]; [discriminate| |lia].
  destruct (e'' <=? emax - prec)%Z; discriminate.
Qed.

Lemma binary_normalize_not_nan (m e : Z) (szero : bool) :
  binary_normalize prec emax m e szero <> S754_nan.
Proof.
  unfold binary_normalize, binary_round.
  destruct m as [|p|p]; [discriminate| |];
    match goal with
    | |- context [shl_align ?a ?b ?c] => destruct (shl_align a b c)
    end; now apply binary_round_aux_not_nan.
Qed.

Lemma SFadd_not_nan (x y : spec_float) :
  x <> S754_nan -> SFfinite y = true -> SFadd prec emax x y <> S754_nan.
Proof.
  intros Hx Hy.
  destruct x as [a|a| |a m e], y as [b|b| |b n k]; simpl in *;
    try discriminate; try (now elim Hx);
    try (now destruct a, b).
  apply binary_normalize_not_nan.
Qed.

Lemma SFsub_not_nan (x y : spec_float) :
  x <> S754_nan -> SFfinite y = true -> SFsub prec emax x y <> S754_nan.
Proof.
  intros Hx Hy.
  destruct x as [a|a| |a m e], y as [b|b| |b n k]; simpl in *;
    try discriminate; try (now elim Hx);
    try (now destruct a, b).
  apply binary_normalize_not_nan.
Qed.

Lemma SFmul_not_nan (x : spec_float) (b : bool) (n : positive) (k : Z) :
  x <> S754_nan -> SFmul prec emax x (S754_finite b n k) <> S754_nan.
Proof.
  intros Hx. destruct x as [a|a| |a m e]; simpl;
    try discriminate; [now elim Hx|].
  now apply binary_round_aux_not_nan.
Qed.

(** A sum or a difference is NaN only if an operand is NaN or both are
    infinite. *)
Lemma add_not_nan (x y : float) :
  is_nan x = false -> is_finite y = true -> is_nan (x + y) = false.
Proof.
  rewrite !not_nan_spec, is_finite_spec, add_spec. apply SFadd_not_nan.
Qed.

Lemma sub_not_nan (x y : float) :
  is_nan x = false -> is_finite y = true -> is_nan (x - y) = false.
Proof.
  rewrite !not_nan_spec, is_finite_spec, sub_spec. apply SFsub_not_nan.
Qed.

(** The product with one of the two rates is NaN only for NaN. *)
Lemma mul_lit_0_01_not_nan (x : float) :
  is_nan x = false -> is_nan (x * lit_0_01) = false.
Proof.
  rewrite !not_nan_spec, mul_spec. intros H.
  assert (E : exists b n k, Prim2SF lit_0_01 = S754_finite b n k)
    by (vm_compute; eauto).
  destruct E as (b & n & k & ->). now apply SFmul_not_nan.
Qed.

Lemma mul_lit_0_002_not_nan (x : float) :
  is_nan x = false -> is_nan (x * lit_0_002) = false.
Proof.
  rewrite !not_nan_spec, mul_spec. intros H.
  assert (E : exists b n k, Prim2SF lit_0_002 = S754_finite b n k)
    by (vm_compute; eauto).
  destruct E as (b & n & k & ->). now apply SFmul_not_nan.
Qed.

(** An int64 converts to a float that is not NaN. *)
Lemma of_Z_not_nan (z : Z) : is_nan (of_Z z) = false.
Proof.
  unfold of_Z. destruct z as [|p|p].
  - reflexivity.
  - destruct (Z.pos p <? 9223372036854775808)%Z; [|reflexivity].
    apply not_nan_spec. rewrite of_uint63_spec.
    apply binary_normalize_not_nan.
  - destruct (Z.pos p <? 9223372036854775808)%Z; [|reflexivity].
    apply not_nan_spec. rewrite opp_spec, of_uint63_spec.
    intros H.
    apply (@binary_normalize_not_nan
             (Uint63Axioms.to_Z (Uint63.of_Z (Z.pos p))) 0 false).
    destruct (binary_normalize prec emax
                (Uint63Axioms.to_Z (Uint63.of_Z (Z.pos p))) 0 false);
      simpl in H; congruence.
Qed.

Lemma to_float_not_nan (x : num) : isnull x = false -> is_nan (to_float x) = false.
Proof.
  destruct x as [z|f]; simpl; [intros _; apply of_Z_not_nan | trivial].
Qed.

(** Elementwise, on the entries of a column. *)

Lemma nadd_not_null (x y : num) :
  isnull x = false -> finite y = true -> isnull (x + y)%num = false.
Proof.
  intros Hx Hy. apply to_float_not_nan in Hx. unfold finite in Hy.
  destruct x as [a|f], y as [b|g]; simpl in *;
    try reflexivity; now apply add_not_nan.
Qed.

Lemma nsub_not_null (x y : num) :
  isnull x = false -> finite y = true -> isnull (x - y)%num = false.
Proof.
  intros Hx Hy. apply to_float_not_nan in Hx. unfold finite in Hy.
  destruct x as [a|f], y as [b|g]; simpl in *;
    try reflexivity; now apply sub_not_nan.
Qed.

Lemma commission_not_null (x : num) :
  isnull x = false -> isnull (x * Flt lit_0_01)%num = false.
Proof.
  intros Hx. apply to_float_not_nan in Hx.
  destruct x as [a|f]; simpl in *; now apply mul_lit_0_01_not_nan.
Qed.

(** ** Preparation *)

Lemma length_locs (c : string) (cols : list string) (i : nat) :
  List.length (locs c cols i) = count_occ string_dec cols c.
Proof.
  revert i. induction cols as [|x cols IH]; intros i; simpl; [reflexivity|].
  destruct (String.eqb_spec c x) as [->|N].
  - destruct (string_dec x x); [|congruence]. simpl. now rewrite IH.
  - destruct (string_dec x c); [congruence|]. apply IH.
Qed.

Lemma series_loc_once (cols : list string) (c : string) :
  count_occ string_dec cols c = 1%nat <-> exists j, series_loc cols c = Some j.
Proof.
  unfold series_loc. rewrite <- (length_locs c cols 0).
  destruct (locs c cols 0) as [|j [|j' l]]; simpl; split;
    try discriminate; try (intros [j0 H]; discriminate).
  - intros _. now exists j.
  - reflexivity.
Qed.

Lemma nth_error_map_combine {A B C : Type} (f : A * B -> C)
    (la : list A) (lb : list B) (i : nat) (c : C) :
  nth_error (map f (combine la lb)) i = Some c ->
  exists a b,
    nth_error la i = Some a /\ nth_error lb i = Some b /\ c = f (a, b).
Proof.
  revert lb i. induction la as [|a la IH]; intros [|b lb] [|i]; simpl;
    try discriminate.
  - intros [= <-]. now exists a, b.
  - apply IH.
Qed.

Section PrepareFacts.

Variable to_datetime : list entry -> list (option Z).
Variable parse_number : string -> option num.
Hypothesis to_datetime_length :
  forall l, List.length (to_datetime l) = List.length l.

Lemma fillna_not_null (x : num) : isnull (fillna x) = false.
Proof.
  destruct x as [z|f]; simpl; [reflexivity|].
  destruct (is_nan f) eqn:E; simpl; [reflexivity | exact E].
Qed.

(** An entry of a column, coerced with the type of its column, is never
    null. *)
Lemma coerce_not_null (b : bool) (e : entry) :
  (b = true -> is_int (to_numeric parse_number (fillna_entry e)) = true) ->
  isnull (coerce parse_number b e) = false.
Proof.
  unfold coerce. intros H. destruct b.
  - specialize (H eq_refl).
    destruct (to_numeric parse_number (fillna_entry e));
      [reflexivity | discriminate H].
  - apply fillna_not_null.
Qed.

(** An empty entry, and one that does not read as a number, become zero. *)
Lemma coerce_blank (b : bool) (e : entry) :
  (b = true -> is_int (to_numeric parse_number (fillna_entry e)) = true) ->
  isnull (to_numeric parse_number e) = true ->
  coerce parse_number b e = Int 0 \/ coerce parse_number b e = Flt 0%float.
Proof.
  unfold coerce. intros H N. destruct e as [|[z|f]|s]; simpl in *.
  - destruct b; [now left | now right].
  - discriminate N.
  - rewrite N in *. simpl in *. destruct b; [now specialize (H eq_refl)|].
    now right.
  - destruct (parse_number s) as [[z|f]|]; simpl in *.
    + discriminate N.
    + destruct b; [now specialize (H eq_refl)|]. rewrite N. now right.
    + destruct b; [now specialize (H eq_refl)|]. now right.
Qed.

(** An entry that reads as a number keeps its value, converted to float64
    in a float64 column. *)
Lemma coerce_value (b : bool) (e : entry) :
  isnull (to_numeric parse_number e) = false ->
  (b = true -> coerce parse_number b e = to_numeric parse_number e) /\
  to_float (coerce parse_number b e) = to_float (to_numeric parse_number e).
Proof.
  intros N.
  assert (E : to_numeric parse_number (fillna_entry e)
              = to_numeric parse_number e).
  { destruct e as [|[z|f]|s]; simpl in *; try reflexivity.
    - discriminate N.
    - now rewrite N. }
  unfold coerce. rewrite E. destruct b.
  - split; reflexivity.
  - split; [discriminate|]. simpl.
    now rewrite (to_float_not_nan _ N).
Qed.

(** The type found for a column holds for each of its entries. *)
Lemma int_column_entry (j : nat) (rows : list (list entry))
    (row : list entry) :
  In row rows -> int_column parse_number j rows = true ->
  is_int (to_numeric parse_number (fillna_entry (iloc j row))) = true.
Proof.
  unfold int_column. rewrite forallb_forall. intros Hr H. now apply H.
Qed.

(** What a successful preparation returns. *)
Lemma prepared_inv (raw : RawFrame) (df : Frame) (m : list string) :
  validate_and_prepare to_datetime parse_number raw = Ok (Some df, m) ->
  let cols := map normalize (columns raw) in
  let p j := (j, int_column parse_number j (values raw)) in
  m = [] /\ missing_columns cols = [] /\
  exists jd j1 j2 j3 j4 j5 j6 j7,
    series_loc cols "date" = Some jd /\
    traverse (series_loc cols) num_cols = Some [j1; j2; j3; j4; j5; j6; j7] /\
    df = map (fun dr =>
                prepare_row parse_number (first_loc cols "order no")
                  (first_loc cols "executive name")
                  (first_loc cols "customer name")
                  (p j1) (p j2) (p j3) (p j4) (p j5) (p j6) (p j7)
                  (fst dr) (snd dr))
             (combine (to_datetime (map (iloc jd) (values raw))) (values raw)).
Proof.
  intros H cols p. unfold validate_and_prepare in H. fold cols in H.
  destruct (missing_columns cols) eqn:M; [|discriminate].
  destruct (series_loc cols "date") as [jd|]; [|discriminate].
  destruct (traverse (series_loc cols) num_cols)
    as [[|j1 [|j2 [|j3 [|j4 [|j5 [|j6 [|j7 [|j8 l]]]]]]]]|]; try discriminate.
  injection H as H1 H2. subst df m.
  split; [reflexivity|]. split; [reflexivity|].
  exists jd, j1, j2, j3, j4, j5, j6, j7. repeat split.
Qed.

(** Every prepared record is [derive] applied to the label values and the
    coerced entries of a row of the table. *)
Lemma prepared_row_shape (raw : RawFrame) (df : Frame) (m : list string)
    (r : Row) :
  validate_and_prepare to_datetime parse_number raw = Ok (Some df, m) ->
  In r df ->
  exists d ord exe cus ob sv sr sio pa cb cm,
    r = derive d ord exe cus ob sv sr sio pa cb cm /\
    isnull ob = false /\ isnull sv = false /\ isnull sr = false /\
    isnull sio = false /\ isnull pa = false /\ isnull cb = false /\
    isnull cm = false.
Proof.
  intros H Hr. apply prepared_inv in H.
  destruct H as (_ & _ & jd & j1 & j2 & j3 & j4 & j5 & j6 & j7 & _ & _ & ->).
  apply in_map_iff in Hr. destruct Hr as [[d row] [<- Hin]].
  apply in_combine_r in Hin.
  unfold prepare_row. simpl. do 11 eexists. split; [reflexivity|].
  repeat split; apply coerce_not_null; intros E;
    now apply int_column_entry with (rows := values raw).
Qed.

(** No row is lost: the prepared date column is pandas' parse of the raw
    one. *)
Lemma prepared_dates (raw : RawFrame) (df : Frame) (m : list string) :
  validate_and_prepare to_datetime parse_number raw = Ok (Some df, m) ->
  exists jd, series_loc (map normalize (columns raw)) "date" = Some jd /\
             map date df = to_datetime (map (iloc jd) (values raw)).
Proof.
  intros H. apply prepared_inv in H.
  destruct H as (_ & _ & jd & j1 & j2 & j3 & j4 & j5 & j6 & j7 & Hd & _ & ->).
  exists jd. split; [assumption|].
  rewrite map_map. simpl.
  assert (L := to_datetime_length (map (iloc jd) (values raw))).
  rewrite length_map in L.
  revert L. generalize (to_datetime (map (iloc jd) (values raw))) as ds.
  generalize (values raw) as rows.
  induction rows as [|row rows IH]; intros [|d ds]; simpl; try discriminate.
  - reflexivity.
  - intros [= L]. f_equal. now apply IH.
Qed.

End PrepareFacts.

(** The sample header normalises to the required names. *)
Example normalize_sample_header :
  map normalize sample_header = REQUIRED_COLUMNS.
Proof. reflexivity. Qed.

Lemma traverse_none {A B : Type} (f : A -> option B) (l : list A) :
  traverse f l = None -> exists a, In a l /\ f a = None.
Proof.
  induction l as [|a l IH]; simpl; [discriminate|].
  destruct (f a) eqn:E.
  - destruct (traverse f l); [discriminate|].
    intros _. destruct (IH eq_refl) as [x [Hx Hf]]. exists x. auto.
  - intros _. exists a. auto.
Qed.

Lemma traverse_length {A B : Type} (f : A -> option B) (l : list A)
    (bs : list B) :
  traverse f l = Some bs -> List.length bs = List.length l.
Proof.
  revert bs. induction l as [|a l IH]; simpl; intros bs.
  - now intros [= <-].
  - destruct (f a); [|discriminate].
    destruct (traverse f l); [|discriminate].
    intros [= <-]. simpl. f_equal. now apply IH.
Qed.

(** Preparation raises only on a validated header that repeats the date
    label or a monetary label. *)
Lemma prepare_raises (to_datetime : list entry -> list (option Z))
    (parse_number : string -> option num) (raw : RawFrame) (e : error) :
  validate_and_prepare to_datetime parse_number raw = Err e ->
  e = PandasError /\
  missing_columns (map normalize (columns raw)) = [] /\
  exists c, In c ("date"%string :: num_cols) /\
            count_occ string_dec (map normalize (columns raw)) c <> 1%nat.
Proof.
  unfold validate_and_prepare. set (cols := map normalize (columns raw)).
  destruct (missing_columns cols); [|discriminate].
  destruct (series_loc cols "date") as [jd|] eqn:Hd.
  - destruct (traverse (series_loc cols) num_cols) as [js|] eqn:T.
    + assert (L := traverse_length _ _ T). simpl in L.
      destruct js as [|j1 [|j2 [|j3 [|j4 [|j5 [|j6 [|j7 [|j8 js]]]]]]]];
        try discriminate L.
      discriminate.
    + intros [= <-]. split; [reflexivity|]. split; [reflexivity|].
      destruct (traverse_none _ _ T) as [c [Hc Hn]].
      exists c. split; [now right|].
      intros H. apply series_loc_once in H. destruct H as [j Hj]. congruence.
  - intros [= <-]. split; [reflexivity|]. split; [reflexivity|].
    exists "date"%string. split; [now left|].
    intros H. apply series_loc_once in H. destruct H as [j Hj]. congruence.
Qed.

(** ** Sums of int64 columns *)

Lemma wrap_sub_l (a b : Z) : wrap (wrap a - b) = wrap (a - b).
Proof.
  rewrite <- !Z.add_opp_r. apply wrap_add_l.
Qed.

(** The formula on int64 entries wraps once, at the end. *)
Lemma int_outstanding (a b c d e f g : Z) :
  (Int a + Int b - Int c - Int d - Int e - Int f - Int g)%num
  = Int (wrap (a + b - c - d - e - f - g)).
Proof.
  unfold nadd, nsub, arith. f_equal.
  rewrite (wrap_sub_l (a + b) c), (wrap_sub_l (a + b - c) d),
    (wrap_sub_l (a + b - c - d) e), (wrap_sub_l (a + b - c - d - e) f).
  apply wrap_sub_l.
Qed.

Lemma wrap_zsum_concat (ls : list (list Z)) :
  wrap (zsum (map (fun l => wrap (zsum l)) ls)) = wrap (zsum (List.concat ls)).
Proof.
  induction ls as [|l ls IH]; simpl; [reflexivity|].
  rewrite wrap_add_l, zsum_app, <- wrap_add_r, IH. apply wrap_add_r.
Qed.



Section IntSums.

Variable series_sum group_sum : list float -> float.

Lemma nansum_int (l : list num) :
  (forall x, In x l -> is_int x = true) ->
  nansum series_sum l = Int (wrap (zsum (map int_of l))).
Proof.
  intros H. unfold nansum. now rewrite (@ints_all l H).
Qed.

Lemma gsum_int (l : list num) :
  (forall x, In x l -> is_int x = true) ->
  gsum group_sum l = Int (wrap (zsum (map int_of l))).
Proof.
  intros H. unfold gsum. now rewrite (@ints_all l H).
Qed.

Lemma nansum_Int (zs : list Z) :
  nansum series_sum (map Int zs) = Int (wrap (zsum zs)).
Proof.
  unfold nansum. now rewrite ints_map_Int.
Qed.

Lemma nansum_float (l : list num) :
  (exists x, In x l /\ is_int x = false) ->
  nansum series_sum l = Flt (series_sum (filled l)).
Proof.
  intros H. unfold nansum. now rewrite (@ints_none l H).
Qed.

(** The sum of an int64 column does not depend on the order of its
    entries. *)
Lemma nansum_perm_Int (l : list num) (zs : list Z) :
  Permutation l (map Int zs) -> nansum series_sum l = Int (wrap (zsum zs)).
Proof.
  intros P. rewrite nansum_int.
  - f_equal. f_equal.
    replace zs with (map int_of (map Int zs))
      by (rewrite map_map; apply map_id).
    apply zsum_perm. now apply Permutation_map.
  - intros x Hx. apply (Permutation_in _ P) in Hx.
    apply in_map_iff in Hx. destruct Hx as [z [<- _]]. reflexivity.
Qed.

Variables (K : Type) (eqb : K -> K -> bool).
Hypothesis eqb_eq : forall x y, eqb x y = true <-> x = y.

(** On an int64 column the sums of the groups, listed in any order, add up
    to the column's sum over the records that have a key. *)
Lemma sum_groupby_int (key : Row -> option K) (col : Row -> num) (v : Frame)
    (g : list (K * num)) :
  (forall r, In r v -> is_int (col r) = true) ->
  Permutation g (groupby_sum group_sum eqb key col v) ->
  sum_groups series_sum g
  = nansum series_sum (map col (filter (keyed key) v)).
Proof.
  intros Hi P. unfold sum_groups.
  set (G := fun k => filter (has_key eqb key k) v).
  set (ks := uniq eqb (dropna (map key v))).
  assert (E : map snd (groupby_sum group_sum eqb key col v)
              = map Int (map (fun l => wrap (zsum l))
                           (map (fun k => map int_of (map col (G k))) ks))).
  { unfold groupby_sum. fold ks. rewrite !map_map. apply map_ext.
    intros k. simpl. apply gsum_int. intros x Hx.
    apply in_map_iff in Hx. destruct Hx as [r [<- Hr]].
    apply filter_In in Hr. now apply Hi. }
  rewrite (@nansum_perm_Int (map snd g)
             (map (fun l => wrap (zsum l))
                (map (fun k => map int_of (map col (G k))) ks)))
    by (rewrite <- E; now apply Permutation_map).
  rewrite wrap_zsum_concat, nansum_int.
  2:{ intros x Hx. apply in_map_iff in Hx. destruct Hx as [r [<- Hr]].
      apply filter_In in Hr. now apply Hi. }
  f_equal. f_equal. apply zsum_perm.
  rewrite <- (map_map G (fun l => map int_of (map col l))).
  rewrite <- (map_map (map col) (map int_of)), <- !concat_map.
  apply Permutation_map, Permutation_map.
  exact (@groups_partition K eqb eqb_eq key v).
Qed.

End IntSums.

(** * The claims *)

(** ** The outstanding formula *)

(** Counterexample to C1 as stated: on an int64 table the formula wraps.
    With opening balance 2^63 - 1 and sales value 1 (the rest 0) the exact
    value is 2^63, and the record gets -2^63. *)
Lemma outstanding_wraps :
  exists r,
    validate_and_prepare epoch_datetime parse_digits overflow_raw
    = Ok (Some [r], []) /\
    opening_balance r = Int 9223372036854775807 /\
    sales_value r = Int 1 /\ sales_return r = Int 0 /\
    sales_in_and_out r = Int 0 /\ paid_amount r = Int 0 /\
    cashback r = Int 0 /\ commission r = Int 0 /\
    outstanding r = Int (-9223372036854775808) /\
    outstanding r <> Int (9223372036854775807 + 1 - 0 - 0 - 0 - 0 - 0).
Proof.
  eexists. split; [vm_compute; reflexivity|].
  repeat (split; [reflexivity|]). discriminate.
Qed.

(** On a float64 table each step rounds: 0.1 + 0.2 - 0.3 is not 0. *)
Example outstanding_rounds :
  exists r,
    validate_and_prepare epoch_datetime parse_digits tenths_raw
    = Ok (Some [r], []) /\
    outstanding r = Flt 5.5511151231257827e-17.
Proof.
  eexists. split; vm_compute; reflexivity.
Qed.

(** C1, amended. In every prepared record [outstanding] is opening balance
    + sales value - sales return - sales in and out - paid amount - cashback
    - commission, evaluated from left to right in the arithmetic of the
    columns: int64 with wrap-around when both operands are int64, float64
    with rounding otherwise.  When the seven values are int64 the result is
    the exact value wrapped to int64, hence the exact value when that fits;
    the record 100, 50, 0, 0, 30, 5, 2 gets 113, in int64 and in
    float64. *)
Theorem outstanding_formula
    (to_datetime : list entry -> list (option Z))
    (parse_number : string -> option num)
    (raw : RawFrame) (df : Frame) (m : list string) (r : Row) :
  validate_and_prepare to_datetime parse_number raw = Ok (Some df, m) ->
  In r df ->
  outstanding r
  = (opening_balance r + sales_value r - sales_return r - sales_in_and_out r
     - paid_amount r - cashback r - commission r)%num /\
  (forall a b c d e f g,
      opening_balance r = Int a -> sales_value r = Int b ->
      sales_return r = Int c -> sales_in_and_out r = Int d ->
      paid_amount r = Int e -> cashback r = Int f -> commission r = Int g ->
      outstanding r = Int (wrap (a + b - c - d - e - f - g)) /\
      (in64 (a + b - c - d - e - f - g) ->
       outstanding r = Int (a + b - c - d - e - f - g))) /\
  (opening_balance r = Int 100 -> sales_value r = Int 50 ->
   sales_return r = Int 0 -> sales_in_and_out r = Int 0 ->
   paid_amount r = Int 30 -> cashback r = Int 5 -> commission r = Int 2 ->
   outstanding r = Int 113) /\
  (opening_balance r = Flt 100 -> sales_value r = Flt 50 ->
   sales_return r = Flt 0 -> sales_in_and_out r = Flt 0 ->
   paid_amount r = Flt 30 -> cashback r = Flt 5 -> commission r = Flt 2 ->
   outstanding r = Flt 113).
Proof.
  intros H Hr.
  destruct (prepared_row_shape _ _ _ _ H Hr)
    as (t & ord & exe & cus & ob & sv & sr & sio & pa & cb & cm & -> & _).
  cbn [outstanding opening_balance sales_value sales_return sales_in_and_out
         paid_amount cashback commission derive].
  split; [reflexivity|]. split; [|split].
  - intros a b c d e f g -> -> -> -> -> -> ->.
    rewrite int_outstanding. split; [reflexivity|].
    intros R. now rewrite wrap_small.
  - intros -> -> -> -> -> -> ->. reflexivity.
  - intros -> -> -> -> -> -> ->. vm_compute. reflexivity.
Qed.

Lemma outstanding_formula_witness : outstanding example_row = Int 113.
Proof.
  refine (proj1 (proj2 (proj2
            (@outstanding_formula epoch_datetime parse_digits example_raw
               [example_row] [] example_row _ _))) _ _ _ _ _ _ _);
    try reflexivity.
  left. reflexivity.
Defined.

(** ** The two commissions *)

(** Counterexample to C5 as stated: the product is a float64 product with
    the double nearest to 0.01.  For a paid amount of 35.0 the commission
    is 0.35000000000000003, which is not the double 0.35. *)
Lemma commission_rounds :
  exists r,
    validate_and_prepare epoch_datetime parse_digits paid35_raw
    = Ok (Some [r], []) /\
    paid_amount r = Flt 35 /\
    exec_commission_calc r = Flt 0.35000000000000003 /\
    (0.35000000000000003 =? 0.35)%float = false.
Proof.
  eexists. split; [vm_compute; reflexivity|].
  repeat split; vm_compute; reflexivity.
Qed.

(** C5, amended. In every prepared record the executive commission is the
    float64 product of the paid amount (converted to float64 when it is an
    int64) and the double 0.01; a paid amount of 30 gives 0.3.  Over every
    view the team leader commission is the float64 product of the total of
    the paid amounts and the double 0.002, where the total of an int64
    column is the wrapped sum of its entries and the total of a float64
    column is what pandas' summation returns on its entries. *)
Theorem commission_rates
    (to_datetime : list entry -> list (option Z))
    (parse_number : string -> option num)
    (series_sum : list float -> float)
    (raw : RawFrame) (df : Frame) (m : list string) :
  validate_and_prepare to_datetime parse_number raw = Ok (Some df, m) ->
  (forall r, In r df ->
     exec_commission_calc r = Flt (to_float (paid_amount r) * 0.01)%float /\
     (paid_amount r = Int 30 -> exec_commission_calc r = Flt 0.3%float)) /\
  (forall (v : Frame) (zs : list Z),
     map paid_amount v = map Int zs ->
     total_paid series_sum v = Int (wrap (zsum zs)) /\
     team_leader_commission series_sum v
     = Flt (of_Z (wrap (zsum zs)) * 0.002)%float) /\
  (forall v : Frame,
     (exists r, In r v /\ is_int (paid_amount r) = false) ->
     total_paid series_sum v = Flt (series_sum (filled (map paid_amount v))) /\
     team_leader_commission series_sum v
     = Flt (series_sum (filled (map paid_amount v)) * 0.002)%float).
Proof.
  intros H. split; [|split].
  - intros r Hr.
    destruct (prepared_row_shape _ _ _ _ H Hr)
      as (t & ord & exe & cus & ob & sv & sr & sio & pa & cb & cm & -> & _).
    cbn [exec_commission_calc paid_amount derive]. split.
    + destruct pa; reflexivity.
    + intros ->. vm_compute. reflexivity.
  - intros v zs E. unfold team_leader_commission, total_paid.
    rewrite E, nansum_Int. split; reflexivity.
  - intros v [r [Hr Hn]]. unfold team_leader_commission, total_paid.
    rewrite nansum_float; [split; reflexivity|].
    exists (paid_amount r). split; [now apply in_map | assumption].
Qed.

Lemma commission_rates_witness :
  exec_commission_calc example_row = Flt 0.3%float /\
  team_leader_commission left_sum [example_row]
  = Flt (of_Z (wrap (zsum [30%Z])) * 0.002)%float.
Proof.
  destruct (@commission_rates epoch_datetime parse_digits left_sum
              example_raw [example_row] [] eq_refl) as (E & T & _).
  split.
  - apply (E example_row); [left|]; reflexivity.
  - apply (T [example_row] [30%Z]). reflexivity.
Defined.

(** ** Missing columns *)

Lemma missing_columns_spec (cols : list string) (c : string) :
  In c (missing_columns cols) <-> In c REQUIRED_COLUMNS /\ ~ In c cols.
Proof.
  unfold missing_columns. rewrite filter_In, negb_true_iff.
  assert (E : existsb (String.eqb c) cols = true <-> In c cols).
  { rewrite existsb_exists. split.
    - intros [x [Hx He]]. apply String.eqb_eq in He. now subst.
    - intros H. exists c. split; [assumption | apply String.eqb_refl]. }
  split; intros [H1 H2]; split; try assumption.
  - intros H. apply E in H. congruence.
  - apply not_true_is_false. intros H. now apply H2, E.
Qed.

Lemma NoDup_REQUIRED_COLUMNS : NoDup REQUIRED_COLUMNS.
Proof.
  unfold REQUIRED_COLUMNS.
  repeat (constructor;
          [simpl; intros H; repeat (destruct H as [H|H]; [discriminate H|]);
           exact H|]).
  constructor.
Qed.

Lemma validate_missing (to_datetime : list entry -> list (option Z))
    (parse_number : string -> option num) (raw : RawFrame) :
  missing_columns (map normalize (columns raw)) <> [] ->
  validate_and_prepare to_datetime parse_number raw
  = Ok (None, missing_columns (map normalize (columns raw))).
Proof.
  intros H. unfold validate_and_prepare.
  destruct (missing_columns (map normalize (columns raw))); [now elim H|].
  reflexivity.
Qed.

(** C2. When a required column is absent from the normalised header,
    validation returns no table and the list of the absent required names
    (each one, once, in the order of [REQUIRED_COLUMNS]); the caller stops
    with that list and the run never reaches the filters. *)
Theorem missing_columns_error
    (to_datetime : list entry -> list (option Z))
    (parse_number : string -> option num) (raw : RawFrame) :
  (exists c, In c REQUIRED_COLUMNS /\ ~ In c (map normalize (columns raw))) ->
  exists missing,
    validate_and_prepare to_datetime parse_number raw = Ok (None, missing) /\
    load to_datetime parse_number raw = Err (MissingColumnsError missing) /\
    (forall date_from date_to selected,
        run to_datetime parse_number raw date_from date_to selected
        = Err (MissingColumnsError missing)) /\
    (forall c, In c missing <->
               In c REQUIRED_COLUMNS /\ ~ In c (map normalize (columns raw))) /\
    NoDup missing /\
    missing = filter (fun c => negb (existsb (String.eqb c)
                                       (map normalize (columns raw))))
                REQUIRED_COLUMNS.
Proof.
  intros [c Hc]. exists (missing_columns (map normalize (columns raw))).
  apply missing_columns_spec in Hc.
  assert (N : missing_columns (map normalize (columns raw)) <> []).
  { intros E. rewrite E in Hc. destruct Hc. }
  assert (V := validate_missing to_datetime parse_number raw N).
  assert (L : load to_datetime parse_number raw
              = Err (MissingColumnsError
                       (missing_columns (map normalize (columns raw))))).
  { unfold load. rewrite V. simpl.
    destruct (missing_columns (map normalize (columns raw))); [now elim N|].
    reflexivity. }
  split; [exact V|]. split; [exact L|]. split.
  { intros. unfold run. rewrite L. reflexivity. }
  split; [intros; apply missing_columns_spec|]. split; [|reflexivity].
  apply NoDup_filter, NoDup_REQUIRED_COLUMNS.
Qed.

Lemma missing_columns_error_witness :
  exists missing,
    validate_and_prepare epoch_datetime parse_digits no_commission_raw
    = Ok (None, missing) /\
    load epoch_datetime parse_digits no_commission_raw
    = Err (MissingColumnsError missing) /\
    (forall date_from date_to selected,
        run epoch_datetime parse_digits no_commission_raw date_from date_to
          selected
        = Err (MissingColumnsError missing)) /\
    (forall c, In c missing <->
               In c REQUIRED_COLUMNS /\
               ~ In c (map normalize (columns no_commission_raw))) /\
    NoDup missing /\
    missing = filter (fun c => negb (existsb (String.eqb c)
                                       (map normalize
                                          (columns no_commission_raw))))
                REQUIRED_COLUMNS.
Proof.
  apply (missing_columns_error epoch_datetime parse_digits no_commission_raw).
  exists "commission"%string. split.
  - unfold REQUIRED_COLUMNS. simpl. tauto.
  - vm_compute. intros H.
    repeat (destruct H as [H|H]; [discriminate H|]). exact H.
Defined.

(** Dropping [commission] reports exactly that name. *)
Example no_commission_missing :
  validate_and_prepare epoch_datetime parse_digits no_commission_raw
  = Ok (None, ["commission"%string]).
Proof. vm_compute. reflexivity. Qed.

(** ** The executive selections *)

Lemma executive_filter_nil (v : Frame) : executive_filter [] v = [].
Proof.
  unfold executive_filter. induction v as [|r v IH]; simpl; auto.
Qed.

(** C3. With nothing selected the executive filter returns the empty view;
    with every executive of the view selected it returns the view itself. *)
Theorem executive_filter_selection (v : Frame) :
  executive_filter [] v = [] /\
  executive_filter (unique (map executive_name v)) v = v.
Proof.
  split; [apply executive_filter_nil|].
  unfold executive_filter. apply filter_true. intros r Hr.
  apply isin_In. unfold unique. apply (In_uniq cell_eqb cell_eqb_eq).
  now apply in_map.
Qed.

(** C10. On the Sales Analysis page an empty selection leaves the view as
    it is, where the sidebar filter would empty it; a selection with at
    least one name restricts the view to the selected executives. *)
Theorem sales_analysis_selection (v : Frame) :
  sales_analysis [] v = v /\
  executive_filter [] v = [] /\
  (forall c sel,
      sales_analysis (c :: sel) v = executive_filter (c :: sel) v) /\
  (forall c sel r,
      In r (sales_analysis (c :: sel) v) <->
      In r v /\ In (executive_name r) (c :: sel)).
Proof.
  split; [reflexivity|]. split; [apply executive_filter_nil|].
  split; [reflexivity|].
  intros c sel r. unfold sales_analysis. rewrite filter_In, isin_In. tauto.
Qed.

(** ** The date range *)

Lemma date_filter_In (date_from date_to : Z) (df : Frame) (r : Row) :
  In r (date_filter date_from date_to df) <->
  In r df /\
  exists t, date r = Some t /\
            (midnight date_from <= t <= midnight date_to)%Z.
Proof.
  unfold date_filter, in_range. rewrite filter_In.
  destruct (date r) as [t|].
  - rewrite andb_true_iff, !Z.leb_le. split.
    + intros [H1 H2]. split; [assumption|]. now exists t.
    + intros [H1 [t' [[= <-] H2]]]. tauto.
  - split; [intros [_ H]; discriminate | intros [_ [t [H _]]]; discriminate].
Qed.

(** C7. With the start day after the end day the filter stage stops with
    [InvalidRangeError], whatever the table and the selection: no view is
    produced, by the stage or by the whole run. *)
Theorem invalid_range_error (date_from date_to : Z) :
  (date_from > date_to)%Z ->
  (forall df selected,
      filter_stage df date_from date_to selected = Err InvalidRangeError) /\
  (forall to_datetime parse_number raw selected df,
      load to_datetime parse_number raw = Ok df ->
      run to_datetime parse_number raw date_from date_to selected
      = Err InvalidRangeError) /\
  (forall to_datetime parse_number raw selected v,
      run to_datetime parse_number raw date_from date_to selected <> Ok v).
Proof.
  intros H.
  assert (S : forall df selected,
             filter_stage df date_from date_to selected = Err InvalidRangeError).
  { intros. unfold filter_stage.
    destruct (Z.gtb_spec date_from date_to); [reflexivity | lia]. }
  split; [exact S|]. split.
  - intros td pn raw sel df L. unfold run. rewrite L. simpl. apply S.
  - intros td pn raw sel v. unfold run.
    destruct (load td pn raw) as [df|e]; simpl; [rewrite S|]; discriminate.
Qed.

Lemma invalid_range_error_witness :
  run epoch_datetime parse_digits example_raw 19001 19000 [Str "bob"]
  = Err InvalidRangeError.
Proof.
  refine (proj1 (proj2 (invalid_range_error (date_from := 19001)
                          (date_to := 19000) _))
            epoch_datetime parse_digits example_raw [Str "bob"] [example_row] _).
  - reflexivity.
  - vm_compute. reflexivity.
Defined.

Lemma midnight_le (d t : Z) : (midnight d <= t)%Z <-> (d <= to_date t)%Z.
Proof.
  unfold midnight, to_date, ns_per_day. split; intros H.
  - apply Z.div_le_lower_bound; lia.
  - assert (M := Z.mul_div_le t 86400000000000 eq_refl). lia.
Qed.

Lemma lt_midnight (t d : Z) : (t < midnight d)%Z <-> (to_date t < d)%Z.
Proof.
  unfold midnight, to_date, ns_per_day. split; intros H.
  - apply Z.div_lt_upper_bound; lia.
  - assert (E := Z.div_mod t 86400000000000).
    assert (B := Z.mod_pos_bound t 86400000000000 eq_refl). lia.
Qed.

Lemma to_date_midnight (d : Z) : to_date (midnight d) = d.
Proof.
  unfold to_date, midnight, ns_per_day. apply Z.div_mul. discriminate.
Qed.

(** Counterexample to C4 as stated: the upper bound is midnight of the end
    day, so a record of the end day with a time of day is left out.  The
    record stamped at noon of day 19000 is dropped by the range from day
    19000 to day 19000. *)
Lemma end_day_noon_dropped :
  validate_and_prepare epoch_datetime parse_digits noon_raw
  = Ok (Some [noon_row], []) /\
  (exists t, date noon_row = Some t /\ (19000 <= to_date t <= 19000)%Z) /\
  date_filter 19000 19000 [noon_row] = [].
Proof.
  split; [vm_compute; reflexivity|]. split; [|reflexivity].
  eexists. split; [reflexivity|]. vm_compute. split; discriminate.
Qed.

(** C4, amended. For a range with start day not after end day the filter
    stage runs, and the date filter keeps exactly the records whose
    timestamp lies between midnight of the start day and midnight of the end
    day, both included.  In calendar days: a record is kept exactly when its
    day is at least the start day and either its day is before the end day
    or its timestamp is midnight of the end day.  So records stamped at
    midnight are kept exactly when their day is in the range, both bounds
    included, and a record of the end day with a later time is dropped.
    Preparation keeps every row, a row whose date did not parse (NaT) too,
    and no date filter keeps a NaT row. *)
Theorem date_range_filter
    (to_datetime : list entry -> list (option Z))
    (parse_number : string -> option num)
    (to_datetime_length :
       forall l, List.length (to_datetime l) = List.length l)
    (raw : RawFrame) (df : Frame) (m : list string) (date_from date_to : Z) :
  validate_and_prepare to_datetime parse_number raw = Ok (Some df, m) ->
  (date_from <= date_to)%Z ->
  (forall selected,
      filter_stage df date_from date_to selected
      = Ok (executive_filter selected (date_filter date_from date_to df))) /\
  (forall r,
      In r (date_filter date_from date_to df) <->
      In r df /\
      exists t, date r = Some t /\
                (date_from * 86400000000000 <= t
                 <= date_to * 86400000000000)%Z) /\
  (forall r t,
      date r = Some t ->
      (In r (date_filter date_from date_to df) <->
       In r df /\ (date_from <= t / 86400000000000)%Z /\
       ((t / 86400000000000 < date_to)%Z
        \/ t = (date_to * 86400000000000)%Z))) /\
  (forall r d,
      date r = Some (d * 86400000000000)%Z ->
      (In r (date_filter date_from date_to df) <->
       In r df /\ (date_from <= d <= date_to)%Z)) /\
  (forall r t,
      In r df -> date r = Some t ->
      to_date t = date_to -> t <> midnight date_to ->
      ~ In r (date_filter date_from date_to df)) /\
  (exists jd,
      series_loc (map normalize (columns raw)) "date" = Some jd /\
      map date df = to_datetime (map (iloc jd) (values raw))) /\
  List.length df = List.length (values raw) /\
  (forall r, In r df -> date r = None ->
             ~ In r (date_filter date_from date_to df)).
Proof.
  intros H Hle.
  assert (D : forall r t,
             date r = Some t ->
             (In r (date_filter date_from date_to df) <->
              In r df /\ (date_from <= to_date t)%Z /\
              ((to_date t < date_to)%Z \/ t = midnight date_to))).
  { intros r t Ht. rewrite date_filter_In. split.
    - intros [Hin [t' [Ht' [H1 H2]]]].
      assert (t' = t) by congruence. subst t'.
      split; [assumption|]. split; [now apply midnight_le|].
      destruct (Z.eq_dec t (midnight date_to)) as [E|E]; [now right|].
      left. apply lt_midnight. lia.
    - intros [Hin [H1 H2]]. split; [assumption|]. exists t.
      split; [assumption|]. split; [now apply midnight_le|].
      destruct H2 as [H2|H2]; [apply lt_midnight in H2|]; lia. }
  split.
  { intros sel. unfold filter_stage.
    destruct (Z.gtb_spec date_from date_to); [lia | reflexivity]. }
  split; [apply date_filter_In|]. split; [exact D|]. split.
  { intros r d Hd. change (d * 86400000000000)%Z with (midnight d) in Hd.
    rewrite (D r _ Hd), to_date_midnight. split.
    - intros [Hin [H1 [H2|H2]]]; (split; [assumption|]); [lia|].
      apply (f_equal to_date) in H2. rewrite !to_date_midnight in H2. lia.
    - intros [Hin [H1 H2]]. split; [assumption|]. split; [assumption|].
      destruct (Z.eq_dec d date_to) as [->|E]; [now right | left; lia]. }
  split.
  { intros r t _ Ht Hd Hn Hin. apply (D r t Ht) in Hin.
    destruct Hin as [_ [_ [Hin|Hin]]]; [lia | contradiction]. }
  destruct (@prepared_dates to_datetime parse_number to_datetime_length
              raw df m H) as [jd [Hjd Hd]].
  split; [now exists jd|]. split.
  - rewrite <- (length_map date), Hd, to_datetime_length. apply length_map.
  - intros r _ Hn Hin. apply date_filter_In in Hin.
    destruct Hin as [_ [t [Ht _]]]. congruence.
Qed.

Lemma date_range_filter_witness :
  In example_row (date_filter 19000 19000 [example_row]) /\
  ~ In noon_row (date_filter 19000 19000 [noon_row]).
Proof.
  split.
  - refine (proj2 (proj1 (proj2 (proj2 (proj2
              (@date_range_filter epoch_datetime parse_digits
                 (fun l => length_map _ l) example_raw [example_row] []
                 19000 19000 _ _)))) example_row 19000%Z _) _).
    + vm_compute. reflexivity.
    + lia.
    + reflexivity.
    + split; [left; reflexivity | lia].
  - refine (proj1 (proj2 (proj2 (proj2 (proj2
              (@date_range_filter epoch_datetime parse_digits
                 (fun l => length_map _ l) noon_raw [noon_row] []
                 19000 19000 _ _)))))
              noon_row _ _ _ _ _).
    + vm_compute. reflexivity.
    + lia.
    + left. reflexivity.
    + reflexivity.
    + vm_compute. reflexivity.
    + vm_compute. discriminate.
Defined.

(** ** Derived fields *)

(** Counterexample to C6 as stated: a header in which two labels normalise
    to [paid amount] passes validation (nothing is missing), and then
    [pd.to_numeric] is handed a two-column selection and raises. *)
Lemma derivation_error_path :
  missing_columns (map normalize (columns dup_paid_raw)) = [] /\
  validate_and_prepare epoch_datetime parse_digits dup_paid_raw
  = Err PandasError.
Proof. split; vm_compute; reflexivity. Qed.

(** A text that reads as infinity is a number for [pd.to_numeric] and is
    left alone by [fillna]: with sales value and paid amount both infinite,
    [outstanding] is infinity minus infinity, NaN. *)
Example infinite_amounts_null :
  exists r,
    validate_and_prepare epoch_datetime parse_digits inf_raw
    = Ok (Some [r], []) /\
    sales_value r = Flt infinity /\ paid_amount r = Flt infinity /\
    isnull (outstanding r) = true /\
    exec_commission_calc r = Flt infinity.
Proof.
  eexists. split; [vm_compute; reflexivity|].
  repeat split; vm_compute; reflexivity.
Qed.

(** C6, amended. When nothing is missing and each of the date column and
    the seven monetary columns occurs once in the normalised header,
    preparation succeeds and keeps every row.  Each monetary field is the
    coerced entry of its column: a number that is never null, zero where
    the entry is empty or does not read as a number, and the value read
    otherwise (converted to float64 in a float64 column).  Both derived
    fields are computed from these by the two formulas; the executive
    commission is never null; [outstanding] is never null when sales value,
    sales return, sales in and out, paid amount, cashback and commission of
    the record are finite, and is an int64 when the seven values are. *)
Theorem derived_fields_numeric
    (to_datetime : list entry -> list (option Z))
    (parse_number : string -> option num)
    (to_datetime_length :
       forall l, List.length (to_datetime l) = List.length l)
    (raw : RawFrame) :
  missing_columns (map normalize (columns raw)) = [] ->
  (forall c, In c ("date"%string :: num_cols) ->
             count_occ string_dec (map normalize (columns raw)) c = 1%nat) ->
  exists df,
    validate_and_prepare to_datetime parse_number raw = Ok (Some df, []) /\
    List.length df = List.length (values raw) /\
    (forall i row r c f j,
        nth_error (values raw) i = Some row -> nth_error df i = Some r ->
        In (c, f) monetary ->
        series_loc (map normalize (columns raw)) c = Some j ->
        f r = coerce parse_number (int_column parse_number j (values raw))
                (iloc j row) /\
        isnull (f r) = false /\
        (isnull (to_numeric parse_number (iloc j row)) = true ->
         f r = Int 0 \/ f r = Flt 0%float) /\
        (isnull (to_numeric parse_number (iloc j row)) = false ->
         to_float (f r) = to_float (to_numeric parse_number (iloc j row)) /\
         (int_column parse_number j (values raw) = true ->
          f r = to_numeric parse_number (iloc j row)))) /\
    (forall r, In r df ->
        outstanding r
        = (opening_balance r + sales_value r - sales_return r
           - sales_in_and_out r - paid_amount r - cashback r
           - commission r)%num /\
        exec_commission_calc r = (paid_amount r * Flt 0.01%float)%num /\
        isnull (exec_commission_calc r) = false /\
        (finite (sales_value r) = true -> finite (sales_return r) = true ->
         finite (sales_in_and_out r) = true ->
         finite (paid_amount r) = true -> finite (cashback r) = true ->
         finite (commission r) = true ->
         isnull (outstanding r) = false) /\
        ((forall c f, In (c, f) monetary -> is_int (f r) = true) ->
         is_int (outstanding r) = true)).
Proof.
  intros Hm Hc. set (cols := map normalize (columns raw)) in *.
  assert (S : forall c, In c ("date"%string :: num_cols) ->
                        exists j, series_loc cols c = Some j).
  { intros c H. apply series_loc_once, Hc, H. }
  unfold num_cols in S.
  destruct (S "date"%string) as [jd Hd]; [simpl; tauto|].
  destruct (S "opening balance"%string) as [j1 H1]; [simpl; tauto|].
  destruct (S "sales value"%string) as [j2 H2]; [simpl; tauto|].
  destruct (S "sales return"%string) as [j3 H3]; [simpl; tauto|].
  destruct (S "sales in and out"%string) as [j4 H4]; [simpl; tauto|].
  destruct (S "paid amount"%string) as [j5 H5]; [simpl; tauto|].
  destruct (S "cashback"%string) as [j6 H6]; [simpl; tauto|].
  destruct (S "commission"%string) as [j7 H7]; [simpl; tauto|].
  clear S.
  assert (V : exists df,
             validate_and_prepare to_datetime parse_number raw
             = Ok (Some df, [])).
  { eexists. unfold validate_and_prepare. fold cols. rewrite Hm, Hd.
    unfold num_cols. cbn [traverse].
    rewrite H1, H2, H3, H4, H5, H6, H7. reflexivity. }
  destruct V as [df V]. exists df. split; [exact V|].
  assert (I := prepared_inv _ _ _ V). cbv zeta in I. fold cols in I.
  destruct I as (_ & _ & jd' & k1 & k2 & k3 & k4 & k5 & k6 & k7 & Hd' & T & E).
  unfold num_cols in T. cbn [traverse] in T.
  rewrite H1, H2, H3, H4, H5, H6, H7 in T.
  injection T as <- <- <- <- <- <- <-.
  split.
  { rewrite E, length_map, length_combine, to_datetime_length, length_map.
    apply Nat.min_id. }
  split.
  { intros i row r c f j Hrow Hr Hcf Hj. rewrite E in Hr.
    apply nth_error_map_combine in Hr.
    destruct Hr as (d & row' & _ & Hrow' & ->).
    rewrite Hrow in Hrow'. injection Hrow' as <-.
    assert (Hin : In row (values raw)) by (eapply nth_error_In; eauto).
    assert (F : f (prepare_row parse_number
                     (first_loc cols "order no")
                     (first_loc cols "executive name")
                     (first_loc cols "customer name")
                     (j1, int_column parse_number j1 (values raw))
                     (j2, int_column parse_number j2 (values raw))
                     (j3, int_column parse_number j3 (values raw))
                     (j4, int_column parse_number j4 (values raw))
                     (j5, int_column parse_number j5 (values raw))
                     (j6, int_column parse_number j6 (values raw))
                     (j7, int_column parse_number j7 (values raw))
                     d row)
                = coerce parse_number
                    (int_column parse_number j (values raw)) (iloc j row)).
    { unfold monetary in Hcf. simpl in Hcf.
      repeat (destruct Hcf as [Hcf|Hcf];
              [injection Hcf as <- <-; simpl; congruence|]).
      destruct Hcf. }
    simpl. rewrite F. split; [reflexivity|].
    assert (G : int_column parse_number j (values raw) = true ->
                is_int (to_numeric parse_number (fillna_entry (iloc j row)))
                = true)
      by (intros G; now apply int_column_entry with (rows := values raw)).
    split; [now apply coerce_not_null|].
    split; [now apply coerce_blank|].
    intros Nn.
    destruct (@coerce_value parse_number
                (int_column parse_number j (values raw)) (iloc j row) Nn)
      as [C1 C2].
    split; assumption. }
  intros r Hr.
  destruct (prepared_row_shape to_datetime _ _ _ V Hr)
    as (t & ord & exe & cus & ob & sv & sr & sio & pa & cb & cm & ->
        & N1 & N2 & N3 & N4 & N5 & N6 & N7).
  cbn [outstanding exec_commission_calc opening_balance sales_value
         sales_return sales_in_and_out paid_amount cashback commission
         derive].
  split; [reflexivity|]. split; [reflexivity|].
  split; [now apply commission_not_null|]. split.
  - intros F2 F3 F4 F5 F6 F7.
    repeat (apply nsub_not_null; [|assumption]).
    now apply nadd_not_null.
  - intros A.
    assert (A1 := A _ opening_balance (or_introl eq_refl)).
    assert (A2 := A _ sales_value (or_intror (or_introl eq_refl))).
    assert (A3 := A _ sales_return
                    (or_intror (or_intror (or_introl eq_refl)))).
    assert (A4 := A _ sales_in_and_out
                    (or_intror (or_intror (or_intror (or_introl eq_refl))))).
    assert (A5 := A _ paid_amount
                    (or_intror (or_intror (or_intror (or_intror
                       (or_introl eq_refl)))))).
    assert (A6 := A _ cashback
                    (or_intror (or_intror (or_intror (or_intror (or_intror
                       (or_introl eq_refl))))))).
    assert (A7 := A _ commission
                    (or_intror (or_intror (or_intror (or_intror (or_intror
                       (or_intror (or_introl eq_refl)))))))).
    cbn [opening_balance sales_value sales_return sales_in_and_out
           paid_amount cashback commission derive] in *.
    destruct ob, sv, sr, sio, pa, cb, cm; try discriminate. reflexivity.
Qed.

Lemma derived_fields_numeric_witness :
  exists df,
    validate_and_prepare epoch_datetime parse_digits example_raw
    = Ok (Some df, []) /\
    List.length df = List.length (values example_raw) /\
    forall r, In r df -> isnull (exec_commission_calc r) = false.
Proof.
  destruct (@derived_fields_numeric epoch_datetime parse_digits
              (fun l => length_map _ l) example_raw) as [df [H [L [_ D]]]].
  - vm_compute. reflexivity.
  - intros c H. simpl in H.
    repeat (destruct H as [H|H]; [subst c; vm_compute; reflexivity|]).
    destruct H.
  - exists df. split; [assumption|]. split; [assumption|].
    intros r Hr. apply (D r Hr).
Defined.

(** ** Aggregations on views *)

(** Counterexample to C8 as stated: on the empty view the two per-customer
    averages are NaN, neither zero nor an empty table. *)
Lemma empty_view_average_nan :
  avg_sales_per_customer left_sum left_sum [] = Flt nan /\
  avg_outstanding_per_customer left_sum left_sum [] = Flt nan /\
  isnull (avg_sales_per_customer left_sum left_sum []) = true /\
  isnull (avg_outstanding_per_customer left_sum left_sum []) = true.
Proof. repeat split. Qed.

(** C8, amended. On the empty view no aggregation fails: the four totals
    and the team leader commission are zero, every group-by table is empty,
    and the two per-customer averages are NaN. *)
Theorem empty_view_aggregations (series_sum group_sum : list float -> float) :
  total_sales series_sum [] = Int 0 /\ total_paid series_sum [] = Int 0 /\
  total_outstanding series_sum [] = Int 0 /\
  total_exec_commission series_sum [] = Int 0 /\
  team_leader_commission series_sum [] = Flt 0%float /\
  (forall col, by_executive group_sum col [] = [] /\
               by_customer group_sum col [] = [] /\
               by_date group_sum col [] = []) /\
  cust_outstanding group_sum [] = [] /\
  avg_sales_per_customer series_sum group_sum [] = Flt nan /\
  avg_outstanding_per_customer series_sum group_sum [] = Flt nan.
Proof.
  repeat split.
Qed.

Lemma keyed_label (key : Row -> cell) (v : Frame) :
  filter (keyed (fun r => label (key r))) v
  = filter (fun r => notna (key r)) v.
Proof.
  apply filter_ext. intros r. unfold keyed. destruct (key r); reflexivity.
Qed.

Lemma groupby_keys {K : Type} (group_sum : list float -> float)
    (eqb : K -> K -> bool) (key : Row -> option K)
    (col : Row -> num) (v : Frame) :
  map fst (groupby_sum group_sum eqb key col v)
  = uniq eqb (dropna (map key v)).
Proof.
  unfold groupby_sum. rewrite map_map. simpl. apply map_id.
Qed.

Lemma dropna_label (l : list cell) : dropna (map label l) = filter notna l.
Proof.
  induction l as [|c l IH]; simpl; [reflexivity|].
  destruct c; simpl; now rewrite IH.
Qed.

Lemma has_key_label (key : Row -> cell) (k : cell) (r : Row) :
  k <> NaN ->
  has_key cell_eqb (fun r => label (key r)) k r = cell_eqb (key r) k.
Proof.
  intros Hk. unfold has_key.
  destruct (key r) eqn:E; simpl; try reflexivity.
  destruct k; [congruence | reflexivity | reflexivity | reflexivity].
Qed.

Lemma notna_neq (c : cell) : notna c = true <-> c <> NaN.
Proof.
  destruct c; simpl; split; congruence.
Qed.

(** The lines of a table grouped by a label column: the names are pairwise
    different, a name has a line exactly when it is not NaN and some record
    carries it, and the value on the line is the group sum of the column
    over the records of that name. *)
Lemma label_table_lines (group_sum : list float -> float)
    (key : Row -> cell) (col : Row -> num) (v : Frame) :
  let t := groupby_sum group_sum cell_eqb (fun r => label (key r)) col v in
  NoDup (map fst t) /\
  (forall k, In k (map fst t) <->
             k <> NaN /\ exists r, In r v /\ key r = k) /\
  (forall k s, In (k, s) t ->
               k <> NaN /\
               s = gsum group_sum
                     (map col (filter (fun r => cell_eqb (key r) k) v))).
Proof.
  intros t.
  assert (M : forall k, In k (map fst t) <->
                        k <> NaN /\ exists r, In r v /\ key r = k).
  { intros k. unfold t. rewrite groupby_keys.
    rewrite (In_uniq cell_eqb cell_eqb_eq).
    rewrite <- (map_map key label), dropna_label, filter_In.
    rewrite in_map_iff, notna_neq. split.
    - intros [[r [Hr Hin]] Hn]. split; [assumption | now exists r].
    - intros [Hn [r [Hin Hr]]]. split; [now exists r | assumption]. }
  split; [|split; [exact M|]].
  - unfold t. rewrite groupby_keys. apply NoDup_uniq, cell_eqb_eq.
  - intros k s H.
    assert (Hk : k <> NaN).
    { apply (M k). apply in_map_iff. now exists (k, s). }
    split; [exact Hk|].
    unfold t, groupby_sum in H. apply in_map_iff in H.
    destruct H as [k' [[= -> <-] _]]. f_equal. f_equal.
    apply filter_ext. intros r. now apply has_key_label.
Qed.

Lemma filter_idem {A : Type} (f : A -> bool) (l : list A) :
  filter f (filter f l) = filter f l.
Proof.
  apply filter_true. intros x Hx. now apply filter_In in Hx.
Qed.

Lemma filter_comm {A : Type} (f g : A -> bool) (l : list A) :
  filter f (filter g l) = filter g (filter f l).
Proof.
  induction l as [|a l IH]; simpl; [reflexivity|].
  destruct (g a) eqn:G, (f a) eqn:F; simpl; rewrite ?G, ?F, IH; reflexivity.
Qed.

Lemma filter_implied {A : Type} (p q : A -> bool) (l : list A) :
  (forall x, p x = true -> q x = true) ->
  filter p (filter q l) = filter p l.
Proof.
  intros H. induction l as [|a l IH]; simpl; [reflexivity|].
  destruct (q a) eqn:Q; simpl.
  - now rewrite IH.
  - destruct (p a) eqn:P; [|exact IH]. apply H in P. congruence.
Qed.

Lemma uniq_filter_notna (l : list cell) :
  uniq cell_eqb (filter notna l) = filter notna (uniq cell_eqb l).
Proof.
  induction l as [|a l IH]; simpl; [reflexivity|].
  destruct (notna a) eqn:N; simpl.
  - rewrite IH. f_equal. apply filter_comm.
  - rewrite IH. symmetry. apply filter_implied.
    intros x Hx. destruct a; try discriminate N.
    destruct x; [discriminate Hx | reflexivity | reflexivity | reflexivity].
Qed.

(** The groups of a label column partition the records that carry a
    name. *)
Lemma label_groups_partition (key : Row -> cell) (v : Frame) :
  Permutation
    (List.concat
       (map (fun k => filter (fun r => cell_eqb (key r) k) v)
          (filter notna (unique (map key v)))))
    (filter (fun r => notna (key r)) v).
Proof.
  rewrite <- keyed_label.
  rewrite <- (@groups_partition cell cell_eqb cell_eqb_eq
                (fun r => label (key r)) v).
  rewrite <- (map_map key label), dropna_label.
  unfold unique. rewrite <- uniq_filter_notna.
  replace (map (fun k => filter (fun r => cell_eqb (key r) k) v)
             (uniq cell_eqb (filter notna (map key v))))
    with (map (fun k => filter (has_key cell_eqb (fun r => label (key r)) k) v)
            (uniq cell_eqb (filter notna (map key v)))); [reflexivity|].
  apply map_ext_in. intros k Hk. apply filter_ext. intros r.
  apply has_key_label.
  apply (proj1 (In_uniq cell_eqb cell_eqb_eq _ _)) in Hk.
  apply filter_In in Hk. now apply notna_neq.
Qed.

(** The same, with the names read off a grouped table. *)
Lemma label_table_partition (group_sum : list float -> float)
    (key : Row -> cell) (col : Row -> num) (v : Frame) :
  Permutation
    (List.concat
       (map (fun k => filter (fun r => cell_eqb (key r) k) v)
          (map fst (groupby_sum group_sum cell_eqb (fun r => label (key r))
                      col v))))
    (filter (fun r => notna (key r)) v).
Proof.
  rewrite groupby_keys.
  rewrite <- (map_map key label), dropna_label, uniq_filter_notna.
  apply label_groups_partition.
Qed.

Lemma customer_options_names (group_sum : list float -> float) (v : Frame) :
  customer_options group_sum v
  = filter notna (unique (map customer_name v)).
Proof.
  unfold customer_options, by_customer, unique. rewrite groupby_keys.
  rewrite <- (map_map customer_name label), dropna_label.
  apply uniq_filter_notna.
Qed.

(** Counterexample to C9 as stated: a record without customer name counts
    in the scalar total and in no customer group. *)
Lemma unnamed_customer_total :
  validate_and_prepare epoch_datetime parse_digits unnamed_customer_raw
  = Ok (Some [unnamed_row], []) /\
  sum_groups left_sum (cust_outstanding left_sum [unnamed_row]) = Int 0 /\
  total_outstanding left_sum [unnamed_row] = Int 113 /\
  sum_groups left_sum (cust_outstanding left_sum [unnamed_row])
  <> total_outstanding left_sum [unnamed_row].
Proof.
  split; [vm_compute; reflexivity|]. split; [reflexivity|].
  split; [reflexivity|]. discriminate.
Qed.

(** On a float64 column the two paths add in different orders, and each
    addition rounds.  For three records of two customers with outstanding
    0.1, 0.1 and 0.4, adding from left to right on both paths, the groups
    give 0.5 + 0.1 = 0.6 and the column 0.6000000000000001. *)
Example float_groups_differ :
  map customer_name float_view = [Str "acme"; Str "zenith"; Str "acme"] /\
  map outstanding float_view = [Flt 0.1; Flt 0.1; Flt 0.4]%float /\
  cust_outstanding left_sum float_view
  = [(Str "acme", Flt 0.5%float); (Str "zenith", Flt 0.1%float)] /\
  sum_groups left_sum (cust_outstanding left_sum float_view)
  = Flt 0.6%float /\
  total_outstanding left_sum float_view = Flt 0.6000000000000001%float.
Proof.
  repeat split; vm_compute; reflexivity.
Qed.

(** C9, amended. On every view the customer groups partition the records
    that have a customer name, and the value of each group is the group sum
    of [outstanding] over its records.  When the [outstanding] column of the
    view is int64, the sums of the groups, in whatever order they are
    listed, add up (in int64, wrapping) to the total outstanding of the
    records that have a customer name; when every record of the view has
    one, that is the scalar total outstanding of the view.  Nothing of the
    kind is stated for a float64 column, where both paths round. *)
Theorem customer_groups_total (series_sum group_sum : list float -> float)
    (v : Frame) (g : list (cell * num)) :
  Permutation g (cust_outstanding group_sum v) ->
  Permutation
    (List.concat
       (map (fun k => filter (fun r => cell_eqb (customer_name r) k) v)
          (map fst (cust_outstanding group_sum v))))
    (filter (fun r => notna (customer_name r)) v) /\
  (forall k s,
      In (k, s) g ->
      k <> NaN /\
      s = gsum group_sum
            (map outstanding
               (filter (fun r => cell_eqb (customer_name r) k) v))) /\
  ((forall r, In r v -> is_int (outstanding r) = true) ->
   sum_groups series_sum g
   = total_outstanding series_sum
       (filter (fun r => notna (customer_name r)) v) /\
   ((forall r, In r v -> customer_name r <> NaN) ->
    sum_groups series_sum g = total_outstanding series_sum v)).
Proof.
  intros P. split; [|split].
  - apply (label_table_partition group_sum customer_name outstanding v).
  - intros k s H. apply (Permutation_in _ P) in H.
    now apply (label_table_lines group_sum customer_name outstanding v).
  - intros Hi.
    assert (E : sum_groups series_sum g
                = total_outstanding series_sum
                    (filter (fun r => notna (customer_name r)) v)).
    { unfold total_outstanding. rewrite <- keyed_label.
      apply (@sum_groupby_int series_sum group_sum cell cell_eqb
               cell_eqb_eq); assumption. }
    split; [exact E|]. intros N. rewrite E. f_equal. apply filter_true.
    intros r Hr. apply notna_neq. now apply N.
Qed.

Lemma customer_groups_total_witness :
  sum_groups left_sum (cust_outstanding left_sum [example_row])
  = total_outstanding left_sum [example_row].
Proof.
  refine (proj2 (proj2 (proj2 (@customer_groups_total left_sum left_sum
                   [example_row] (cust_outstanding left_sum [example_row]) _))
            _) _).
  - apply Permutation_refl.
  - intros r [<-|[]]. reflexivity.
  - intros r [<-|[]]. discriminate.
Defined.

(** * Further properties of the pipeline *)

(** ** Filters *)

Lemma filter_stage_view (df v : Frame) (date_from date_to : Z)
    (selected : list cell) :
  filter_stage df date_from date_to selected = Ok v ->
  v = executive_filter selected (date_filter date_from date_to df).
Proof.
  unfold filter_stage. destruct (date_from >? date_to)%Z; [discriminate|].
  now intros [= <-].
Qed.

(** X1. The two sidebar filters commute, the view of a successful filter
    stage holds exactly the records of the table that pass both masks, and
    filtering that view again with the same range and selection changes
    nothing. *)
Theorem filter_stage_idempotent (df v : Frame) (date_from date_to : Z)
    (selected : list cell) :
  filter_stage df date_from date_to selected = Ok v ->
  filter_stage v date_from date_to selected = Ok v /\
  (forall r, In r v <->
             In r df /\ in_range date_from date_to r = true /\
             In (executive_name r) selected) /\
  v = date_filter date_from date_to (executive_filter selected df).
Proof.
  unfold filter_stage. destruct (date_from >? date_to)%Z; [discriminate|].
  intros [= <-]. unfold executive_filter, date_filter. split; [|split].
  - f_equal.
    rewrite (filter_true (in_range date_from date_to)).
    + apply filter_idem.
    + intros r Hr. apply filter_In in Hr. destruct Hr as [Hr _].
      apply filter_In in Hr. tauto.
  - intros r. rewrite !filter_In, isin_In. tauto.
  - apply filter_comm.
Qed.

Lemma filter_stage_idempotent_witness :
  filter_stage [example_row] 19000 19000 [Str "bob"] = Ok [example_row].
Proof.
  apply (@filter_stage_idempotent [example_row] [example_row] 19000 19000
           [Str "bob"]).
  vm_compute. reflexivity.
Defined.

(** ** Group-by tables *)

(** X4. The per-executive groups of a view partition the records that have
    an executive name, and the per-customer groups those that have a
    customer name.  On an int64 column the per-executive sums, in whatever
    order the groups are listed, add up to the column's total over the
    records that have an executive name, and the per-customer sums to its
    total over the records that have a customer name. *)
Theorem group_sums_total (series_sum group_sum : list float -> float)
    (col : Row -> num) (v : Frame) (ge gc : list (cell * num)) :
  Permutation ge (by_executive group_sum col v) ->
  Permutation gc (by_customer group_sum col v) ->
  Permutation
    (List.concat
       (map (fun k => filter (fun r => cell_eqb (executive_name r) k) v)
          (map fst (by_executive group_sum col v))))
    (filter (fun r => notna (executive_name r)) v) /\
  Permutation
    (List.concat
       (map (fun k => filter (fun r => cell_eqb (customer_name r) k) v)
          (map fst (by_customer group_sum col v))))
    (filter (fun r => notna (customer_name r)) v) /\
  ((forall r, In r v -> is_int (col r) = true) ->
   sum_groups series_sum ge
   = nansum series_sum
       (map col (filter (fun r => notna (executive_name r)) v)) /\
   sum_groups series_sum gc
   = nansum series_sum
       (map col (filter (fun r => notna (customer_name r)) v))).
Proof.
  intros Pe Pc.
  split; [apply label_table_partition|].
  split; [apply label_table_partition|].
  intros Hi. rewrite <- !keyed_label. split.
  - apply (@sum_groupby_int series_sum group_sum cell cell_eqb cell_eqb_eq);
      assumption.
  - apply (@sum_groupby_int series_sum group_sum cell cell_eqb cell_eqb_eq);
      assumption.
Qed.

Lemma group_sums_total_witness :
  sum_groups left_sum (by_executive left_sum sales_value [example_row])
  = nansum left_sum
      (map sales_value
         (filter (fun r => notna (executive_name r)) [example_row])).
Proof.
  refine (proj1 (proj2 (proj2
            (@group_sums_total left_sum left_sum sales_value [example_row]
               (by_executive left_sum sales_value [example_row])
               (by_customer left_sum sales_value [example_row]) _ _)) _)).
  - apply Permutation_refl.
  - apply Permutation_refl.
  - intros r [<-|[]]. reflexivity.
Defined.

(** X5. On the view of a successful filter stage every record has a
    timestamp, so the per-date groups of the trend chart partition the view,
    and the per-date table is empty only when the view is.  When sales
    value (paid amount) is an int64 column the per-date sums, in whatever
    order the dates are listed, add up to the dashboard total of sales (of
    paid amount). *)
Theorem trend_sums_to_totals (series_sum group_sum : list float -> float)
    (df v : Frame) (date_from date_to : Z)
    (selected : list cell) (gs gp : list (Z * num)) :
  filter_stage df date_from date_to selected = Ok v ->
  Permutation gs (by_date group_sum sales_value v) ->
  Permutation gp (by_date group_sum paid_amount v) ->
  (forall r, In r v -> exists t, date r = Some t) /\
  Permutation
    (List.concat
       (map (fun t => filter (fun r => match date r with
                                       | Some t' => (t' =? t)%Z
                                       | None => false
                                       end) v)
          (map fst (by_date group_sum sales_value v))))
    v /\
  (by_date group_sum sales_value v = [] <-> v = []) /\
  ((forall r, In r v -> is_int (sales_value r) = true) ->
   sum_groups series_sum gs = total_sales series_sum v) /\
  ((forall r, In r v -> is_int (paid_amount r) = true) ->
   sum_groups series_sum gp = total_paid series_sum v).
Proof.
  intros H Ps Pp.
  assert (D : forall r, In r v -> exists t, date r = Some t).
  { intros r Hr. rewrite (filter_stage_view _ _ _ _ H) in Hr.
    apply filter_In in Hr. destruct Hr as [Hr _].
    apply date_filter_In in Hr. destruct Hr as (_ & t & Ht & _).
    now exists t. }
  assert (K : filter (keyed date) v = v).
  { apply filter_true. intros r Hr. unfold keyed.
    destruct (D r Hr) as [t ->]. reflexivity. }
  split; [exact D|]. split.
  { unfold by_date. rewrite groupby_keys.
    assert (G := @groups_partition Z Z.eqb Z.eqb_eq date v).
    rewrite K in G. exact G. }
  split.
  { split.
    - intros E. destruct v as [|r v']; [reflexivity|].
      destruct (D r (or_introl eq_refl)) as [t Ht].
      unfold by_date, groupby_sum in E. simpl in E. rewrite Ht in E.
      discriminate E.
    - intros ->. reflexivity. }
  split; intros Hi.
  - assert (S := @sum_groupby_int series_sum group_sum Z Z.eqb Z.eqb_eq
                   date sales_value v gs Hi Ps).
    rewrite K in S. exact S.
  - assert (S := @sum_groupby_int series_sum group_sum Z Z.eqb Z.eqb_eq
                   date paid_amount v gp Hi Pp).
    rewrite K in S. exact S.
Qed.

Lemma trend_sums_to_totals_witness :
  sum_groups left_sum (by_date left_sum sales_value [example_row])
  = total_sales left_sum [example_row].
Proof.
  refine (proj1 (proj2 (proj2 (proj2
            (@trend_sums_to_totals left_sum left_sum [example_row]
               [example_row] 19000 19000 [Str "bob"]
               (by_date left_sum sales_value [example_row])
               (by_date left_sum paid_amount [example_row]) _ _ _)))) _).
  - vm_compute. reflexivity.
  - apply Permutation_refl.
  - apply Permutation_refl.
  - intros r [<-|[]]. reflexivity.
Defined.

(** X6. A per-customer table has one line per distinct customer name that
    occurs in the view, NaN apart: the names of its lines are pairwise
    different, a name has a line exactly when it is not NaN and some record
    carries it, and the value on the line is the column's group sum over
    the records of that customer. *)
Theorem customer_table_lines (group_sum : list float -> float)
    (col : Row -> num) (v : Frame) :
  NoDup (map fst (by_customer group_sum col v)) /\
  (forall k, In k (map fst (by_customer group_sum col v)) <->
             k <> NaN /\ exists r, In r v /\ customer_name r = k) /\
  (forall k s, In (k, s) (by_customer group_sum col v) ->
               s = gsum group_sum
                     (map col
                        (filter (fun r => cell_eqb (customer_name r) k) v))).
Proof.
  destruct (label_table_lines group_sum customer_name col v) as (N & M & L).
  split; [exact N|]. split; [exact M|].
  intros k s H. now apply L.
Qed.

(** ** The Customer Analysis page *)

Lemma length_filter_split {A : Type} (p : A -> bool) (l : list A) :
  List.length l
  = (List.length (filter p l)
     + List.length (filter (fun x => negb (p x)) l))%nat.
Proof.
  induction l as [|a l IH]; simpl; [reflexivity|].
  destruct (p a); simpl; lia.
Qed.

Lemma length_nan_uniq (l : list cell) :
  List.length (filter (fun c => negb (notna c)) (uniq cell_eqb l))
  = if existsb (fun c => negb (notna c)) l then 1%nat else 0%nat.
Proof.
  assert (N := NoDup_uniq cell_eqb cell_eqb_eq l).
  assert (I : forall c, In c (uniq cell_eqb l) <-> In c l)
    by (intros c; apply In_uniq, cell_eqb_eq).
  assert (E : existsb (fun c => negb (notna c)) l = true <-> In NaN l).
  { rewrite existsb_exists. split.
    - intros [c [Hc Hn]].
      destruct c; [assumption | discriminate | discriminate | discriminate].
    - intros H. now exists NaN. }
  revert N I. generalize (uniq cell_eqb l) as u. intros u N I.
  assert (G : List.length (filter (fun c => negb (notna c)) u) = 1%nat
              /\ In NaN u
              \/ List.length (filter (fun c => negb (notna c)) u) = 0%nat
                 /\ ~ In NaN u).
  { clear I E. induction N as [|a u Ha N IH]; simpl; [right; tauto|].
    destruct a; simpl.
    - left. split; [|now left].
      destruct IH as [[_ H]|[H _]]; [contradiction | now rewrite H].
    - destruct IH as [[H1 H2]|[H1 H2]]; [left | right]; split; auto;
        intros [H|H]; [discriminate | contradiction].
    - destruct IH as [[H1 H2]|[H1 H2]]; [left | right]; split; auto;
        intros [H|H]; [discriminate | contradiction].
    - destruct IH as [[H1 H2]|[H1 H2]]; [left | right]; split; auto;
        intros [H|H]; [discriminate | contradiction]. }
  destruct (existsb (fun c => negb (notna c)) l) eqn:X.
  - destruct G as [[G _]|[_ G]]; [exact G|].
    elim G. apply I, E. reflexivity.
  - destruct G as [[_ G]|[G _]]; [|exact G].
    apply I, E in G. congruence.
Qed.

(** X7. The Total Customers metric counts the distinct values of the
    customer column, a missing name (NaN) being one of them, while the
    per-customer table and the select box leave NaN out: the metric is the
    number of table lines, plus one when some record has no customer
    name. *)
Theorem total_customers_counts_nan (group_sum : list float -> float)
    (v : Frame) :
  total_customers v
  = (List.length (customer_options group_sum v)
     + if existsb (fun c => negb (notna c)) (map customer_name v)
       then 1 else 0)%nat /\
  List.length (customer_options group_sum v)
  = List.length (by_customer group_sum sales_value v).
Proof.
  split.
  - rewrite customer_options_names. unfold total_customers, unique.
    rewrite (length_filter_split notna), length_nan_uniq. reflexivity.
  - unfold customer_options. apply length_map.
Qed.

(** X8. For a name on a line of a per-customer table: when the name is
    true as a Python value the page shows the records of the view carrying
    that name, the value on the line is the group sum of the column over
    these records, and on an int64 column the total shown for the profile
    is the value on the line; when the name is false (the number zero, the
    empty text) the page shows no profile, although the table has the
    line. *)
Theorem customer_profile_total (series_sum group_sum : list float -> float)
    (col : Row -> num) (v : Frame) (k : cell) (s : num) :
  In (k, s) (by_customer group_sum col v) ->
  (truthy k = true ->
   exists p, customer_profile v (Some k) = Some p /\
             (forall r, In r p <-> In r v /\ customer_name r = k) /\
             s = gsum group_sum (map col p) /\
             ((forall r, In r v -> is_int (col r) = true) ->
              nansum series_sum (map col p) = s)) /\
  (truthy k = false -> customer_profile v (Some k) = None).
Proof.
  intros H.
  destruct (label_table_lines group_sum customer_name col v) as (_ & _ & L).
  destruct (L k s H) as [Hk Hs].
  assert (E : filter (fun r => eq_cell (customer_name r) k) v
              = filter (fun r => cell_eqb (customer_name r) k) v).
  { apply filter_ext. intros r. unfold eq_cell.
    destruct (customer_name r) eqn:C; try reflexivity.
    destruct k; [congruence | reflexivity | reflexivity | reflexivity]. }
  split.
  - intros T. unfold customer_profile. rewrite T. eexists.
    split; [reflexivity|]. rewrite E. split; [|split].
    + intros r. rewrite filter_In, cell_eqb_eq. tauto.
    + exact Hs.
    + intros Hi. rewrite Hs.
      assert (I : forall x,
                 In x (map col (filter (fun r => cell_eqb (customer_name r) k)
                                  v)) ->
                 is_int x = true).
      { intros x Hx. apply in_map_iff in Hx. destruct Hx as [r [<- Hr]].
        apply filter_In in Hr. now apply Hi. }
      now rewrite (nansum_int series_sum _ I), (gsum_int group_sum _ I).
  - intros T. unfold customer_profile. now rewrite T.
Qed.

Lemma customer_profile_total_witness :
  exists p, customer_profile [example_row] (Some (Str "acme")) = Some p /\
            nansum left_sum (map outstanding p) = Int 113.
Proof.
  destruct (@customer_profile_total left_sum left_sum outstanding
              [example_row] (Str "acme") (Int 113))
    as [H _].
  - left. reflexivity.
  - destruct (H eq_refl) as [p [Hp [_ [_ Hs]]]]. exists p.
    split; [exact Hp|]. apply Hs. intros r [<-|[]]. reflexivity.
Defined.





(** ** The default date range *)

Lemma fold_min_le (t : Z) (l : list Z) (x : Z) :
  In x (t :: l) -> (fold_right Z.min t l <= x)%Z.
Proof.
  induction l as [|y l IH]; simpl.
  - intros [<-|[]]. lia.
  - intros [H|[H|H]]; subst; try lia.
    + specialize (IH (or_introl eq_refl)). lia.
    + specialize (IH (or_intror H)). lia.
Qed.

Lemma fold_max_ge (t : Z) (l : list Z) (x : Z) :
  In x (t :: l) -> (x <= fold_right Z.max t l)%Z.
Proof.
  induction l as [|y l IH]; simpl.
  - intros [<-|[]]. lia.
  - intros [H|[H|H]]; subst; try lia.
    + specialize (IH (or_introl eq_refl)). lia.
    + specialize (IH (or_intror H)). lia.
Qed.

Lemma midnight_to_date_le (t : Z) : (midnight (to_date t) <= t)%Z.
Proof.
  unfold midnight, to_date. rewrite Z.mul_comm.
  apply Z.mul_div_le. reflexivity.
Qed.

Lemma to_date_mono (s t : Z) : (s <= t)%Z -> (to_date s <= to_date t)%Z.
Proof.
  intros H. unfold to_date. apply Z.div_le_mono; [reflexivity | exact H].
Qed.

(** X10. When some record has a timestamp, the range the date picker starts
    from (day of the earliest timestamp to day of the latest) is a valid
    range, so the filter stage runs; among the records with a timestamp it
    keeps exactly those not later than midnight of the latest day, and so
    every record stamped at a midnight.  Records without timestamp are
    dropped. *)
Theorem default_range_filter (df : Frame) (lo hi : Z) :
  default_range df = Some (lo, hi) ->
  (lo <= hi)%Z /\
  (forall selected,
      filter_stage df lo hi selected
      = Ok (executive_filter selected (date_filter lo hi df))) /\
  (forall r t, In r df -> date r = Some t ->
               (In r (date_filter lo hi df) <-> (t <= midnight hi)%Z)) /\
  (forall r d, In r df -> date r = Some (midnight d) ->
               In r (date_filter lo hi df)) /\
  (forall r, date r = None -> ~ In r (date_filter lo hi df)).
Proof.
  unfold default_range, date_min, date_max. intros H.
  destruct (dropna (map date df)) as [|t0 l] eqn:E; [discriminate|].
  injection H as <- <-.
  assert (M : forall r t, In r df -> date r = Some t -> In t (t0 :: l)).
  { intros r t Hr Ht. rewrite <- E. apply In_dropna. rewrite <- Ht.
    now apply in_map. }
  assert (Lo : forall r t, In r df -> date r = Some t ->
                 (midnight (to_date (fold_right Z.min t0 l)) <= t)%Z).
  { intros r t Hr Ht.
    assert (A := midnight_to_date_le (fold_right Z.min t0 l)).
    assert (B := @fold_min_le t0 l t (M r t Hr Ht)). lia. }
  assert (Le : (to_date (fold_right Z.min t0 l)
                <= to_date (fold_right Z.max t0 l))%Z).
  { apply to_date_mono.
    assert (A := @fold_min_le t0 l t0 (or_introl eq_refl)).
    assert (B := @fold_max_ge t0 l t0 (or_introl eq_refl)). lia. }
  split; [exact Le|]. split.
  { intros sel. unfold filter_stage.
    destruct (Z.gtb_spec (to_date (fold_right Z.min t0 l))
                (to_date (fold_right Z.max t0 l))); [lia | reflexivity]. }
  assert (K : forall r t, In r df -> date r = Some t ->
                (In r (date_filter (to_date (fold_right Z.min t0 l))
                         (to_date (fold_right Z.max t0 l)) df)
                 <-> (t <= midnight (to_date (fold_right Z.max t0 l)))%Z)).
  { intros r t Hr Ht. rewrite date_filter_In. split.
    - intros [_ [t' [Ht' [_ Hb]]]]. congruence.
    - intros Hb. split; [exact Hr|]. exists t. split; [exact Ht|].
      split; [now apply (Lo r) | exact Hb]. }
  split; [exact K|]. split.
  - intros r d Hr Hd. apply (K r _ Hr Hd).
    assert (B := @fold_max_ge t0 l _ (M r _ Hr Hd)).
    apply to_date_mono in B. rewrite to_date_midnight in B.
    unfold midnight. apply Z.mul_le_mono_nonneg_r; [discriminate | exact B].
  - intros r Hn Hin. apply date_filter_In in Hin.
    destruct Hin as [_ [t [Ht _]]]. congruence.
Qed.

Lemma default_range_filter_witness :
  filter_stage [example_row] 19000 19000 [Str "bob"]
  = Ok (executive_filter [Str "bob"] (date_filter 19000 19000 [example_row])).
Proof.
  refine (proj1 (proj2 (@default_range_filter [example_row] 19000 19000 _))
            [Str "bob"]).
  vm_compute. reflexivity.
Defined.

(** ** Header labels *)

Lemma isspace_lower_char (c : ascii) :
  PyStr.isspace (PyStr.lower_char c) = PyStr.isspace c.
Proof.
  destruct c as [[] [] [] [] [] [] [] []]; reflexivity.
Qed.

Lemma lower_char_idem (c : ascii) :
  PyStr.lower_char (PyStr.lower_char c) = PyStr.lower_char c.
Proof.
  destruct c as [[] [] [] [] [] [] [] []]; reflexivity.
Qed.

Lemma lower_idem (s : string) : PyStr.lower (PyStr.lower s) = PyStr.lower s.
Proof.
  induction s as [|c s IH]; simpl; [reflexivity|].
  now rewrite lower_char_idem, IH.
Qed.

Lemma lstrip_lower (s : string) :
  PyStr.lstrip (PyStr.lower s) = PyStr.lower (PyStr.lstrip s).
Proof.
  induction s as [|c s IH]; simpl; [reflexivity|].
  rewrite isspace_lower_char. destruct (PyStr.isspace c); [exact IH|].
  reflexivity.
Qed.

Lemma rstrip_lower (s : string) :
  PyStr.rstrip (PyStr.lower s) = PyStr.lower (PyStr.rstrip s).
Proof.
  induction s as [|c s IH]; simpl; [reflexivity|].
  rewrite IH, isspace_lower_char.
  destruct (PyStr.rstrip s); simpl; [|reflexivity].
  destruct (PyStr.isspace c); reflexivity.
Qed.

Lemma rstrip_idem (s : string) :
  PyStr.rstrip (PyStr.rstrip s) = PyStr.rstrip s.
Proof.
  induction s as [|c s IH]; simpl; [reflexivity|].
  destruct (PyStr.rstrip s) as [|c' t] eqn:E.
  - destruct (PyStr.isspace c) eqn:S; simpl; [reflexivity|].
    now rewrite S.
  - simpl in *. now rewrite IH.
Qed.

(** A string that does not start with a space keeps its first character
    under [rstrip], so [lstrip] leaves the result alone. *)
Lemma lstrip_rstrip_lstrip (s : string) :
  PyStr.lstrip (PyStr.rstrip (PyStr.lstrip s))
  = PyStr.rstrip (PyStr.lstrip s).
Proof.
  induction s as [|c s IH]; simpl; [reflexivity|].
  destruct (PyStr.isspace c) eqn:S; [exact IH|].
  simpl. destruct (PyStr.rstrip s).
  - rewrite S. simpl. now rewrite S.
  - simpl. now rewrite S.
Qed.

Lemma strip_idem (s : string) : PyStr.strip (PyStr.strip s) = PyStr.strip s.
Proof.
  unfold PyStr.strip. rewrite lstrip_rstrip_lstrip. apply rstrip_idem.
Qed.

Lemma normalize_idem (s : string) : normalize (normalize s) = normalize s.
Proof.
  unfold normalize, PyStr.strip.
  rewrite lstrip_lower, rstrip_lower, lower_idem.
  fold (PyStr.strip s). fold (PyStr.strip (PyStr.strip s)).
  now rewrite strip_idem.
Qed.

(** X11. Normalising a header label twice is the same as normalising it
    once, so validation and preparation see no difference between a table
    and the same table with its labels already lower-cased and trimmed. *)
Theorem header_normalisation
    (to_datetime : list entry -> list (option Z))
    (parse_number : string -> option num) (raw : RawFrame) :
  (forall s, normalize (normalize s) = normalize s) /\
  validate_and_prepare to_datetime parse_number
    (mkRaw (map normalize (columns raw)) (values raw))
  = validate_and_prepare to_datetime parse_number raw.
Proof.
  split; [exact normalize_idem|].
  unfold validate_and_prepare. simpl.
  rewrite map_map. rewrite (map_ext _ _ normalize_idem). reflexivity.
Qed.

(** ** Nested date ranges *)

(** X13. Narrowing the range narrows the view: for a range inside another,
    filtering the wider view by the narrower range is filtering the table
    by the narrower range, and every record kept by the narrower range is
    kept by the wider one. *)
Theorem date_filter_nested (df : Frame) (a b a' b' : Z) :
  (a' <= a)%Z -> (b <= b')%Z ->
  date_filter a b (date_filter a' b' df) = date_filter a b df /\
  (forall r, In r (date_filter a b df) -> In r (date_filter a' b' df)).
Proof.
  intros Ha Hb.
  assert (I : forall r, in_range a b r = true -> in_range a' b' r = true).
  { intros r. unfold in_range, midnight. destruct (date r); [|discriminate].
    rewrite !andb_true_iff, !Z.leb_le. unfold ns_per_day. lia. }
  split.
  - unfold date_filter. now apply filter_implied.
  - intros r. unfold date_filter. rewrite !filter_In.
    intros [H1 H2]. auto.
Qed.

Lemma date_filter_nested_witness :
  date_filter 19000 19000 (date_filter 18999 19001 [example_row])
  = date_filter 19000 19000 [example_row].
Proof.
  refine (proj1 (@date_filter_nested [example_row] 19000 19000 18999 19001
                   _ _)); lia.
Defined.
